(** * Arduino mobile phone: keypad hit-testing, dial state and call sequence

    A shallow embedding of [Arduino_Mobile_Phone.ino].  The sketch is a
    single polling loop over two mutable globals ([text_x], [n]) that
    talks to three devices: the TFT display, the resistive touch panel
    and the GSM modem on a software serial port.  Device calls are
    recorded, in program order, as a trace of [event]s; the globals are
    threaded through a small state-and-trace monad [Cmd]. *)

From Stdlib Require Import ZArith List String Ascii Bool Lia.
Import ListNotations.
Local Open Scope Z_scope.

(** ** Fixed-width integers of the sketch *)

(** Conversion to [uint16_t]: reduction modulo 2^16. *)
Definition uint16_t (v : Z) : Z := v mod 65536.

(** Conversion to [int16_t]: two's-complement reading of the low 16 bits. *)
Definition int16_t (v : Z) : Z := (v + 32768) mod 65536 - 32768.

(** ** Constants ([#define]s) *)

Definition BLACK : Z := 0x0000.
Definition BLUE : Z := 0x001F.
Definition RED : Z := 0xF800.
Definition GREEN : Z := 0x07E0.
Definition CYAN : Z := 0x07FF.
Definition WHITE : Z := 0xFFFF.
Definition OLIVE : Z := 0x7BE0.
Definition LIGHTGREY : Z := 0xC618.
Definition DARKGREY : Z := 0x7BEF.
Definition GREENYELLOW : Z := 0xAFE5.
Definition PINK : Z := 0xF81F.

Definition BUTTON_R : Z := 25.
Definition BUTTON_SPACING_X : Z := 25.
Definition BUTTON_SPACING_Y : Z := 5.
Definition EDG_Y : Z := 5.
Definition EDG_X : Z := 20.

Definition TS_MINX : Z := 910.
Definition TS_MAXX : Z := 180.
Definition TS_MINY : Z := 760.
Definition TS_MAXY : Z := 135.

Definition MINPRESSURE : Z := 10.
Definition MAXPRESSURE : Z := 1000.

(** [CENTER] is the horizontal-centering sentinel of the LCDWIKI_GUI
    header, passed through to [Print_String] unchanged. *)
Definition CENTER : Z := 9998.

(** ** Devices *)

Inductive pin : Type :=
| Digital (k : Z)
| Analog (k : Z).

Definition YP : pin := Analog 1.
Definition XM : pin := Analog 2.

Inductive level : Type := LOW | HIGH.
Inductive pin_mode : Type := OUTPUT.

(** A touch sample as returned by [ts.getPoint()]. *)
Record TSPoint : Type := mkTSPoint { x : Z; y : Z; z : Z }.

(** The display is built by [my_lcd(240, 320, ...)] (width, height) and
    is never rotated, so the two size queries are constant. *)
Definition Get_Display_Width : Z := 240.
Definition Get_Display_Height : Z := 320.

(** Arduino's [map]: linear rescaling in [long] arithmetic, the division
    truncating toward zero. *)
Definition map (v in_min in_max out_min out_max : Z) : Z :=
  Z.quot ((v - in_min) * (out_max - out_min)) (in_max - in_min) + out_min.

(** What one [updateSerial] call finds waiting on the two serial ports:
    the bytes typed on the hardware console and the bytes the modem has
    answered. *)
Record pending : Type := mkPending {
  from_console : list Byte.byte;
  from_modem : list Byte.byte
}.

(** Everything the environment supplies during one pass of [loop]: the
    touch sample, and the serial traffic drained by the relay after the
    dial command and after the hang-up command. *)
Record input : Type := mkInput {
  sample : TSPoint;
  after_dial : pending;
  after_hangup : pending
}.

(** Device calls, in the vocabulary of the sketch. *)
Inductive event : Type :=
| digitalWrite (p : pin) (v : level)
| getPoint (p : TSPoint)
| pinMode (p : pin) (m : pin_mode)
| Set_Text_Mode (mode : bool)
| Set_Text_Size (csize : Z)
| Set_Text_colour (fc : Z)
| Set_Text_Back_colour (bc : Z)
| Print_String (str : string) (px py : Z)
| Set_Draw_color (c : Z)
| Fill_Circle (cx cy r : Z)
| Fill_Rectangle (x1 y1 x2 y2 : Z)
| delay (ms : Z)
| mySerial_println (line : string)
| mySerial_write (b : Byte.byte)
| Serial_write (b : Byte.byte).

(** ** Program state and the command monad *)

(** The two globals the loop mutates. *)
Record globals : Type := mkGlobals { text_x : Z; n : Z }.

Definition Cmd (A : Type) : Type := globals -> A * globals * list event.

Definition ret {A : Type} (a : A) : Cmd A := fun g => (a, g, []).

Definition bind {A B : Type} (m : Cmd A) (f : A -> Cmd B) : Cmd B :=
  fun g =>
    let '(a, g1, t1) := m g in
    let '(b, g2, t2) := f a g1 in
    (b, g2, t1 ++ t2).

Definition call (e : event) : Cmd unit := fun g => (tt, g, [e]).

Definition read_text_x : Cmd Z := fun g => (text_x g, g, []).
Definition read_n : Cmd Z := fun g => (n g, g, []).
Definition write_text_x (v : Z) : Cmd unit :=
  fun g => (tt, mkGlobals (uint16_t v) (n g), []).
Definition write_n (v : Z) : Cmd unit :=
  fun g => (tt, mkGlobals (text_x g) (uint16_t v), []).

Declare Scope cmd_scope.
Delimit Scope cmd_scope with cmd.
Notation "v <- m ;; k" := (bind m (fun v => k))
  (at level 100, m at next level, right associativity) : cmd_scope.
Notation "m ;; k" := (bind m (fun _ => k))
  (at level 100, right associativity) : cmd_scope.
Local Open Scope cmd_scope.

(** Final globals and emitted trace of a command. *)
Definition state_of {A : Type} (r : A * globals * list event) : globals :=
  snd (fst r).
Definition trace_of {A : Type} (r : A * globals * list event) : list event :=
  snd r.

(** ** Keypad layout *)

Record button_info : Type := mkButton {
  button_name : string;
  button_name_size : Z;
  button_name_colour : Z;
  button_colour : Z;
  button_x : Z;
  button_y : Z
}.

Definition col1 : Z := uint16_t (EDG_X + BUTTON_R - 1).
Definition col2 : Z := uint16_t (EDG_X + 3 * BUTTON_R + BUTTON_SPACING_X - 1).
Definition col3 : Z := uint16_t (EDG_X + 5 * BUTTON_R + 2 * BUTTON_SPACING_X - 1).
Definition row1 : Z :=
  uint16_t (Get_Display_Height - EDG_Y - 4 * BUTTON_SPACING_Y - 9 * BUTTON_R - 1).
Definition row2 : Z :=
  uint16_t (Get_Display_Height - EDG_Y - 3 * BUTTON_SPACING_Y - 7 * BUTTON_R - 1).
Definition row3 : Z :=
  uint16_t (Get_Display_Height - EDG_Y - 2 * BUTTON_SPACING_Y - 5 * BUTTON_R - 1).
Definition row4 : Z :=
  uint16_t (Get_Display_Height - EDG_Y - BUTTON_SPACING_Y - 3 * BUTTON_R - 1).
Definition row5 : Z :=
  uint16_t (Get_Display_Height - EDG_Y - BUTTON_R - 1).

Definition phone_button : list button_info :=
  [ mkButton "1" 3 BLACK CYAN col1 row1;
    mkButton "2" 3 BLACK CYAN col2 row1;
    mkButton "3" 3 BLACK CYAN col3 row1;
    mkButton "4" 3 BLACK CYAN col1 row2;
    mkButton "5" 3 BLACK CYAN col2 row2;
    mkButton "6" 3 BLACK CYAN col3 row2;
    mkButton "7" 3 BLACK CYAN col1 row3;
    mkButton "8" 3 BLACK CYAN col2 row3;
    mkButton "9" 3 BLACK CYAN col3 row3;
    mkButton "#" 3 BLACK PINK col1 row4;
    mkButton "0" 3 BLACK CYAN col2 row4;
    mkButton "*" 3 BLACK PINK col3 row4;
    mkButton "end" 2 BLACK RED col1 row5;
    mkButton "call" 2 BLACK GREEN col2 row5;
    mkButton "dele" 2 BLACK LIGHTGREY col3 row5 ].

(** [phone_button[0].button_name_size], read by the global initialisers. *)
Definition first_name_size : Z :=
  match phone_button with
  | b :: _ => button_name_size b
  | [] => 0
  end.

(** Globals that are initialised once and never assigned. *)
Definition text_y : Z := 6.
Definition text_x_add : Z := uint16_t (6 * first_name_size).
Definition text_y_add : Z := uint16_t (8 * first_name_size).

(** The globals as the static initialisers leave them. *)
Definition initial : globals := mkGlobals 10 0.

(** ** Functions of the sketch *)

Definition show_string (str : string) (px py csize fc bc : Z) (mode : bool)
  : Cmd unit :=
  call (Set_Text_Mode mode) ;;
  call (Set_Text_Size csize) ;;
  call (Set_Text_colour fc) ;;
  call (Set_Text_Back_colour bc) ;;
  call (Print_String str (int16_t px) (int16_t py)).

Definition is_pressed (x1 y1 x2 y2 px py : Z) : bool :=
  ((px >? x1) && (px <? x2)) && ((py >? y1) && (py <? y2)).

(** The two [while] loops of [updateSerial], each draining one port into
    the other. *)
Fixpoint console_to_modem (bs : list Byte.byte) : Cmd unit :=
  match bs with
  | [] => ret tt
  | b :: rest => call (mySerial_write b) ;; console_to_modem rest
  end.

Fixpoint modem_to_console (bs : list Byte.byte) : Cmd unit :=
  match bs with
  | [] => ret tt
  | b :: rest => call (Serial_write b) ;; modem_to_console rest
  end.

Definition updateSerial (p : pending) : Cmd unit :=
  call (delay 500) ;;
  console_to_modem (from_console p) ;;
  modem_to_console (from_modem p).

(** [strlen] of a button label. *)
Definition strlen (s : string) : Z := Z.of_nat (String.length s).

(** Where a button's label is printed (the x and y arguments shared by
    the three [show_string] calls on a button). *)
Definition label_x (b : button_info) : Z :=
  button_x b - strlen (button_name b) * button_name_size b * 6 / 2 + 1.
Definition label_y (b : button_info) : Z :=
  button_y b - button_name_size b * 8 / 2 + 1.

(** Lines 202-208: the press-feedback flash. *)
Definition flash (b : button_info) : Cmd unit :=
  call (Set_Draw_color DARKGREY) ;;
  call (Fill_Circle (int16_t (button_x b)) (int16_t (button_y b)) BUTTON_R) ;;
  show_string (button_name b) (label_x b) (label_y b) (button_name_size b)
    WHITE BLACK true ;;
  call (delay 100) ;;
  call (Set_Draw_color (button_colour b)) ;;
  call (Fill_Circle (int16_t (button_x b)) (int16_t (button_y b)) BUTTON_R) ;;
  show_string (button_name b) (label_x b) (label_y b) (button_name_size b)
    (button_name_colour b) BLACK true.

(** Lines 210-238: what a matched button does, by its index. *)
Definition dispatch (inp : input) (i : nat) (b : button_info) : Cmd unit :=
  if (i <? 12)%nat then
    cnt <- read_n ;;
    if cnt <? 13 then
      tx <- read_text_x ;;
      show_string (button_name b) tx text_y (button_name_size b)
        GREENYELLOW BLACK true ;;
      write_text_x (tx + (text_x_add - 1)) ;;
      write_n (cnt + 1)
    else ret tt
  else if (i =? 12)%nat then
    call (Set_Draw_color BLUE) ;;
    call (Fill_Rectangle 0 33 (Get_Display_Width - 1) 42) ;;
    show_string "Calling ended" CENTER 33 1 OLIVE BLACK true
  else if (i =? 13)%nat then
    call (Set_Draw_color BLUE) ;;
    call (Fill_Rectangle 0 33 (Get_Display_Width - 1) 42) ;;
    show_string "Calling..." CENTER 33 1 OLIVE BLACK true ;;
    call (mySerial_println "ATD+916374354166;") ;;
    updateSerial (after_dial inp) ;;
    call (delay 20000) ;;
    call (mySerial_println "ATH") ;;
    updateSerial (after_hangup inp)
  else if (i =? 14)%nat then
    cnt <- read_n ;;
    if cnt >? 0 then
      call (Set_Draw_color BLUE) ;;
      tx0 <- read_text_x ;;
      write_text_x (tx0 - (text_x_add - 1)) ;;
      tx <- read_text_x ;;
      call (Fill_Rectangle (int16_t tx) (int16_t text_y)
              (int16_t (tx + text_x_add - 1))
              (int16_t (text_y + text_y_add - 2))) ;;
      write_n (cnt - 1)
    else ret tt
  else ret tt.

(** The hit test of line 201 for one button. *)
Definition hit (b : button_info) (px py : Z) : bool :=
  is_pressed (int16_t (button_x b - BUTTON_R)) (int16_t (button_y b - BUTTON_R))
             (int16_t (button_x b + BUTTON_R)) (int16_t (button_y b + BUTTON_R))
             px py.

(** The body of the [for] loop over the button table. *)
Definition on_button (inp : input) (px py : Z) (i : nat) (b : button_info)
  : Cmd unit :=
  if hit b px py then flash b ;; dispatch inp i b else ret tt.

(** [for (i = 0; i < count; i++) body(i, table[i])], started at index [i]
    on the remaining entries [bs]. *)
Fixpoint for_buttons (body : nat -> button_info -> Cmd unit)
    (i : nat) (bs : list button_info) : Cmd unit :=
  match bs with
  | [] => ret tt
  | b :: rest => body i b ;; for_buttons body (S i) rest
  end.

(** The pressure gate of line 196. *)
Definition qualifies (p : TSPoint) : bool :=
  (z p >? MINPRESSURE) && (z p <? MAXPRESSURE).

(** The sample's display coordinates (lines 197-198). *)
Definition mapped_x (p : TSPoint) : Z :=
  int16_t (map (x p) TS_MINX TS_MAXX 0 Get_Display_Width).
Definition mapped_y (p : TSPoint) : Z :=
  int16_t (map (y p) TS_MINY TS_MAXY 0 Get_Display_Height).

(** One pass of [loop], over an arbitrary button table. *)
Definition loop_over (table : list button_info) (inp : input) : Cmd unit :=
  call (digitalWrite (Digital 13) HIGH) ;;
  call (getPoint (sample inp)) ;;
  call (digitalWrite (Digital 13) LOW) ;;
  call (pinMode XM OUTPUT) ;;
  call (pinMode YP OUTPUT) ;;
  if qualifies (sample inp) then
    for_buttons
      (on_button inp (mapped_x (sample inp)) (mapped_y (sample inp)))
      0%nat table
  else ret tt.

Definition loop (inp : input) : Cmd unit := loop_over phone_button inp.

(** The sketch after [setup]: [loop] called again and again, once per
    element of the input sequence. *)
Fixpoint run (inps : list input) : Cmd unit :=
  match inps with
  | [] => ret tt
  | inp :: rest => loop inp ;; run rest
  end.

(** ** Vocabulary for stating properties *)

(** The device calls that open every pass of [loop]. *)
Definition sampling (p : TSPoint) : list event :=
  [ digitalWrite (Digital 13) HIGH; getPoint p; digitalWrite (Digital 13) LOW;
    pinMode XM OUTPUT; pinMode YP OUTPUT ].

(** The five display calls made by one [show_string]. *)
Definition shown (str : string) (px py csize fc bc : Z) (mode : bool)
  : list event :=
  [ Set_Text_Mode mode; Set_Text_Size csize; Set_Text_colour fc;
    Set_Text_Back_colour bc; Print_String str (int16_t px) (int16_t py) ].

(** Trace of the press-feedback flash of a button. *)
Definition flashed (b : button_info) : list event :=
  [ Set_Draw_color DARKGREY;
    Fill_Circle (int16_t (button_x b)) (int16_t (button_y b)) BUTTON_R ]
  ++ shown (button_name b) (label_x b) (label_y b) (button_name_size b)
       WHITE BLACK true
  ++ [ delay 100; Set_Draw_color (button_colour b);
       Fill_Circle (int16_t (button_x b)) (int16_t (button_y b)) BUTTON_R ]
  ++ shown (button_name b) (label_x b) (label_y b) (button_name_size b)
       (button_name_colour b) BLACK true.

(** Clearing the status banner region and printing [msg] in it. *)
Definition banner (msg : string) : list event :=
  [ Set_Draw_color BLUE; Fill_Rectangle 0 33 (Get_Display_Width - 1) 42 ]
  ++ shown msg CENTER 33 1 OLIVE BLACK true.

(** Trace of one [updateSerial]. *)
Definition relayed (p : pending) : list event :=
  delay 500 :: List.map mySerial_write (from_console p)
            ++ List.map Serial_write (from_modem p).

(** The buttons whose square strictly contains the point, with their
    indices, in layout order: those for which the loop body runs. *)
Fixpoint hits_from (i : nat) (bs : list button_info) (px py : Z)
  : list (nat * button_info) :=
  match bs with
  | [] => []
  | b :: rest =>
      if hit b px py then (i, b) :: hits_from (S i) rest px py
      else hits_from (S i) rest px py
  end.

Definition hits (px py : Z) : list (nat * button_info) :=
  hits_from 0 phone_button px py.

(** The first button in layout order whose square strictly contains the
    point. *)
Fixpoint first_hit_from (i : nat) (bs : list button_info) (px py : Z)
  : option (nat * button_info) :=
  match bs with
  | [] => None
  | b :: rest =>
      if hit b px py then Some (i, b) else first_hit_from (S i) rest px py
  end.

Definition first_hit (px py : Z) : option (nat * button_info) :=
  first_hit_from 0 phone_button px py.

(** Two buttons exclude each other at a point when it cannot lie strictly
    inside both squares. *)
Definition exclusive (px py : Z) (b c : button_info) : Prop :=
  hit b px py = true -> hit c px py = false.

(** What the loop body does for a matched button: flash, then act. *)
Definition press (inp : input) (ib : nat * button_info) : Cmd unit :=
  flash (snd ib) ;; dispatch inp (fst ib) (snd ib).

Fixpoint presses (inp : input) (l : list (nat * button_info)) : Cmd unit :=
  match l with
  | [] => ret tt
  | ib :: rest => press inp ib ;; presses inp rest
  end.

(** Command lines the sketch itself prints to the modem. *)
Definition modem_commands (t : list event) : list string :=
  flat_map (fun e => match e with mySerial_println l => [l] | _ => [] end) t.

(** Every event that puts bytes on the modem link. *)
Definition on_modem_link (e : event) : bool :=
  match e with
  | mySerial_println _ | mySerial_write _ => true
  | _ => false
  end.

Definition is_getPoint (e : event) : bool :=
  match e with getPoint _ => true | _ => false end.

(** Bytes put on the wire by [println]: the text, then CR LF. *)
Definition CR : ascii := ascii_of_nat 13.
Definition LF : ascii := ascii_of_nat 10.
Definition println_bytes (line : string) : string :=
  (line ++ String CR (String LF EmptyString))%string.

Fixpoint last_char (s : string) : option ascii :=
  match s with
  | EmptyString => None
  | String c EmptyString => Some c
  | String _ rest => last_char rest
  end.

(** The pattern [ATD\+?\d+;] of the call scenario, as a matcher. *)
Definition is_digit (c : ascii) : bool :=
  ((48 <=? nat_of_ascii c) && (nat_of_ascii c <=? 57))%nat.

Fixpoint digits_semicolon (seen : bool) (s : string) : bool :=
  match s with
  | EmptyString => false
  | String c rest =>
      if is_digit c then digits_semicolon true rest
      else seen && Ascii.eqb c ";" && String.eqb rest ""
  end.

Definition matches_dial_pattern (s : string) : bool :=
  match s with
  | String "A" (String "T" (String "D" rest)) =>
      match rest with
      | String "+" rest' => digits_semicolon false rest'
      | _ => digits_semicolon false rest
      end
  | _ => false
  end.

(** Concrete inputs on which the statements below are instantiated: a
    quiet serial line, a touch on "call", on "end" and on "1", and a
    touch too light to count. *)
Definition quiet : pending := mkPending [] [].
Definition touch_call : input := mkInput (mkTSPoint 548 196 500) quiet quiet.
Definition touch_end : input := mkInput (mkTSPoint 776 196 500) quiet quiet.
Definition touch_one : input := mkInput (mkTSPoint 776 625 500) quiet quiet.
Definition touch_light : input := mkInput (mkTSPoint 776 625 10) quiet quiet.
Definition button_one : button_info := mkButton "1" 3 BLACK CYAN col1 row1.
Definition button_end : button_info := mkButton "end" 2 BLACK RED col1 row5.
Definition button_call : button_info := mkButton "call" 2 BLACK GREEN col2 row5.
Definition button_dele : button_info :=
  mkButton "dele" 2 BLACK LIGHTGREY col3 row5.

(** [k] presses of the delete button. *)
Definition deletes (dele : button_info) (k : nat) : list (nat * button_info) :=
  repeat (14%nat, dele) k.

(** The globals after the keys [keys] have been pressed from start-up,
    and after [k] further presses of delete. *)
Definition filled (inp : input) (keys : list (nat * button_info)) : globals :=
  state_of (presses inp keys initial).
Definition after_deletes (inp : input) (keys : list (nat * button_info))
    (dele : button_info) (k : nat) : globals :=
  state_of (presses inp (deletes dele k) (filled inp keys)).

(** Keys that append: presses of the twelve buttons at indices 0..11. *)
Definition digit_keys (keys : list (nat * button_info)) : Prop :=
  Forall (fun ib => (fst ib < 12)%nat) keys.

(** The only command lines the sketch contains. *)
Definition fixed_command (line : string) : Prop :=
  line = "ATD+916374354166;"%string \/ line = "ATH"%string.

(** The loop invariant on the globals. *)
Definition cursor_tracks_count (g : globals) : Prop :=
  0 <= n g <= 13 /\ text_x g = 10 + n g * (text_x_add - 1).

(** ** The start-up menu *)

(** Lines 164-166: one button of the menu, its disc and its label. *)
Definition draw_button (b : button_info) : Cmd unit :=
  call (Set_Draw_color (button_colour b)) ;;
  call (Fill_Circle (int16_t (button_x b)) (int16_t (button_y b)) BUTTON_R) ;;
  show_string (button_name b) (label_x b) (label_y b) (button_name_size b)
    (button_name_colour b) BLACK true.

(** [show_menu]: every button of the table, then the four bars of the
    frame around the dial line. *)
Definition show_menu : Cmd unit :=
  for_buttons (fun _ b => draw_button b) 0%nat phone_button ;;
  call (Set_Draw_color BLACK) ;;
  call (Fill_Rectangle 1 1 (Get_Display_Width - 2) 3) ;;
  call (Fill_Rectangle 1 29 (Get_Display_Width - 2) 31) ;;
  call (Fill_Rectangle 1 1 3 31) ;;
  call (Fill_Rectangle (Get_Display_Width - 4) 1 (Get_Display_Width - 2) 31).

(** ** Vocabulary for the further properties *)

(** The keypad as a grid: the column and the row whose open interval
    contains a coordinate, and the index of the cell. *)
Definition column_of (px : Z) : option nat :=
  if (19 <? px) && (px <? 69) then Some 0%nat
  else if (94 <? px) && (px <? 144) then Some 1%nat
  else if (169 <? px) && (px <? 219) then Some 2%nat
  else None.

Definition row_of (py : Z) : option nat :=
  if (44 <? py) && (py <? 94) then Some 0%nat
  else if (99 <? py) && (py <? 149) then Some 1%nat
  else if (154 <? py) && (py <? 204) then Some 2%nat
  else if (209 <? py) && (py <? 259) then Some 3%nat
  else if (264 <? py) && (py <? 314) then Some 4%nat
  else None.

Definition grid_cell (px py : Z) : option nat :=
  match row_of py, column_of px with
  | Some r, Some c => Some (3 * r + c)%nat
  | _, _ => None
  end.

(** A raw reading that the calibration maps to a given display
    coordinate. *)
Definition raw_x_for (px : Z) : Z := TS_MINX - (730 * px + 239) / 240.
Definition raw_y_for (py : Z) : Z := TS_MINY - (625 * py + 319) / 320.

(** Time spent in [delay] along a trace, in milliseconds. *)
Definition total_delay (t : list event) : Z :=
  fold_right (fun e acc => match e with delay ms => ms + acc | _ => acc end)
             0 t.

(** Pixel extents on the display.  Text is measured with the 6 x 8 cell
    per unit of text size that the sketch itself uses for its cursor
    advance and for centring labels. *)
Definition rect_fits (x1 y1 x2 y2 : Z) : bool :=
  (0 <=? x1) && (x1 <=? x2) && (x2 <? Get_Display_Width)
  && (0 <=? y1) && (y1 <=? y2) && (y2 <? Get_Display_Height).

Definition disc_fits (cx cy r : Z) : bool :=
  rect_fits (cx - r) (cy - r) (cx + r) (cy + r).

Definition text_box_fits (csize : Z) (str : string) (px py : Z) : bool :=
  (if px =? CENTER then strlen str * 6 * csize <=? Get_Display_Width
   else (0 <=? px) && (px + strlen str * 6 * csize <=? Get_Display_Width))
  && (0 <=? py) && (py + 8 * csize <=? Get_Display_Height).

(** Every disc, rectangle and text box of a trace lies on the display;
    [csize] is the text size in force when the trace starts. *)
Fixpoint on_screen (csize : Z) (t : list event) : bool :=
  match t with
  | [] => true
  | Set_Text_Size s :: rest => on_screen s rest
  | Print_String str px py :: rest =>
      text_box_fits csize str px py && on_screen csize rest
  | Fill_Circle cx cy r :: rest => disc_fits cx cy r && on_screen csize rest
  | Fill_Rectangle x1 y1 x2 y2 :: rest =>
      rect_fits x1 y1 x2 y2 && on_screen csize rest
  | _ :: rest => on_screen csize rest
  end.

(** Rectangles as corner quadruples [(x1, y1, x2, y2)], both corners
    included. *)
Definition rect : Type := (Z * Z * Z * Z)%type.

Definition apart (a b : rect) : bool :=
  let '(ax1, ay1, ax2, ay2) := a in
  let '(bx1, by1, bx2, by2) := b in
  (ax2 <? bx1) || (bx2 <? ax1) || (ay2 <? by1) || (by2 <? ay1).

(** What a trace paints: its rectangles, and the bounding squares of its
    discs. *)
Definition painted (t : list event) : list rect :=
  flat_map (fun e => match e with
                     | Fill_Rectangle x1 y1 x2 y2 => [(x1, y1, x2, y2)]
                     | Fill_Circle cx cy r => [(cx - r, cy - r, cx + r, cy + r)]
                     | _ => []
                     end) t.

Definition rectangles (t : list event) : list rect :=
  flat_map (fun e => match e with
                     | Fill_Rectangle x1 y1 x2 y2 => [(x1, y1, x2, y2)]
                     | _ => []
                     end) t.

(** The regions of the menu as [show_menu] paints it. *)
Definition menu_regions : list rect := painted (trace_of (show_menu initial)).

(** A rectangle that leaves every region of the menu untouched. *)
Definition spares_menu (r : rect) : bool := forallb (apart r) menu_regions.

(** The bytes a trace writes one by one to the modem, and to the
    console. *)
Definition bytes_to_modem (t : list event) : list Byte.byte :=
  flat_map (fun e => match e with mySerial_write c => [c] | _ => [] end) t.
Definition bytes_to_console (t : list event) : list Byte.byte :=
  flat_map (fun e => match e with Serial_write c => [c] | _ => [] end) t.

(** An index paired with the table entry at that index. *)
Definition from_table (ib : nat * button_info) : Prop :=
  nth_error phone_button (fst ib) = Some (snd ib).

(** The pixel box of a button's label. *)
Definition label_inside (b : button_info) : bool :=
  (button_x b - BUTTON_R <? label_x b)
  && (label_x b + strlen (button_name b) * 6 * button_name_size b
      <=? button_x b + BUTTON_R)
  && (button_y b - BUTTON_R <? label_y b)
  && (label_y b + 8 * button_name_size b <=? button_y b + BUTTON_R).

(** ** Basic facts about commands *)

Lemma result_eta (r : unit * globals * list event) :
  r = (tt, state_of r, trace_of r).
Proof. destruct r as [[[] g] t]. reflexivity. Qed.

Lemma state_of_mk {A : Type} (a : A) (g : globals) (t : list event) :
  state_of (a, g, t) = g.
Proof. reflexivity. Qed.

Lemma trace_of_mk {A : Type} (a : A) (g : globals) (t : list event) :
  trace_of (a, g, t) = t.
Proof. reflexivity. Qed.

Lemma bind_state {A B : Type} (m : Cmd A) (k : A -> Cmd B) (g : globals) :
  state_of (bind m k g) = state_of (k (fst (fst (m g))) (state_of (m g))).
Proof.
  unfold bind, state_of. destruct (m g) as [[a g1] t1]. simpl.
  destruct (k a g1) as [[b g2] t2]. reflexivity.
Qed.

Lemma bind_trace {A B : Type} (m : Cmd A) (k : A -> Cmd B) (g : globals) :
  trace_of (bind m k g)
  = trace_of (m g) ++ trace_of (k (fst (fst (m g))) (state_of (m g))).
Proof.
  unfold bind, state_of, trace_of. destruct (m g) as [[a g1] t1]. simpl.
  destruct (k a g1) as [[b g2] t2]. reflexivity.
Qed.

Lemma bind_unit (m : Cmd unit) (k : unit -> Cmd unit) (g : globals) :
  bind m k g
  = (tt, state_of (k tt (state_of (m g))),
     trace_of (m g) ++ trace_of (k tt (state_of (m g)))).
Proof.
  unfold bind, state_of, trace_of. destruct (m g) as [[[] g1] t1]. simpl.
  destruct (k tt g1) as [[[] g2] t2]. reflexivity.
Qed.

Lemma show_string_run str px py csize fc bc mode g :
  show_string str px py csize fc bc mode g
  = (tt, g, shown str px py csize fc bc mode).
Proof. reflexivity. Qed.

Lemma flash_run b g : flash b g = (tt, g, flashed b).
Proof. reflexivity. Qed.

Lemma console_to_modem_run bs g :
  console_to_modem bs g = (tt, g, List.map mySerial_write bs).
Proof.
  induction bs as [|b rest IH]; [reflexivity|].
  cbn [console_to_modem modem_to_console List.map].
  rewrite bind_unit. unfold call. cbn [state_of trace_of fst snd].
  rewrite IH. reflexivity.
Qed.

Lemma modem_to_console_run bs g :
  modem_to_console bs g = (tt, g, List.map Serial_write bs).
Proof.
  induction bs as [|b rest IH]; [reflexivity|].
  cbn [console_to_modem modem_to_console List.map].
  rewrite bind_unit. unfold call. cbn [state_of trace_of fst snd].
  rewrite IH. reflexivity.
Qed.

Lemma updateSerial_run p g : updateSerial p g = (tt, g, relayed p).
Proof.
  unfold updateSerial, relayed.
  rewrite !bind_unit. unfold call. cbn [state_of trace_of fst snd].
  rewrite console_to_modem_run. cbn [state_of trace_of fst snd].
  rewrite modem_to_console_run. reflexivity.
Qed.

Lemma text_x_add_value : text_x_add = 18.
Proof. reflexivity. Qed.

Lemma text_y_add_value : text_y_add = 24.
Proof. reflexivity. Qed.

(** ** The five arms of the dispatch *)

Lemma dispatch_digit_append inp i b g :
  (i < 12)%nat -> n g < 13 ->
  dispatch inp i b g
  = (tt,
     mkGlobals (uint16_t (text_x g + (text_x_add - 1))) (uint16_t (n g + 1)),
     shown (button_name b) (text_x g) text_y (button_name_size b)
       GREENYELLOW BLACK true).
Proof.
  intros Hi Hn. unfold dispatch.
  apply Nat.ltb_lt in Hi. rewrite Hi.
  unfold bind at 1. unfold read_n at 1.
  apply Z.ltb_lt in Hn. rewrite Hn.
  reflexivity.
Qed.

Lemma dispatch_digit_full inp i b g :
  (i < 12)%nat -> 13 <= n g -> dispatch inp i b g = (tt, g, []).
Proof.
  intros Hi Hn. unfold dispatch.
  apply Nat.ltb_lt in Hi. rewrite Hi.
  unfold bind at 1. unfold read_n at 1.
  apply Z.ltb_ge in Hn. rewrite Hn.
  reflexivity.
Qed.

Lemma dispatch_end inp b g :
  dispatch inp 12 b g = (tt, g, banner "Calling ended").
Proof. reflexivity. Qed.

Lemma dispatch_call inp b g :
  dispatch inp 13 b g
  = (tt, g,
     banner "Calling..."
     ++ [mySerial_println "ATD+916374354166;"] ++ relayed (after_dial inp)
     ++ [delay 20000; mySerial_println "ATH"] ++ relayed (after_hangup inp)).
Proof.
  unfold dispatch. cbn [Nat.ltb Nat.leb Nat.eqb].
  rewrite !bind_unit. unfold call. cbn [state_of trace_of fst snd].
  rewrite show_string_run. cbn [state_of trace_of fst snd].
  rewrite !updateSerial_run. cbn [state_of trace_of fst snd].
  reflexivity.
Qed.

Lemma dispatch_delete_nonempty inp b g :
  0 < n g ->
  dispatch inp 14 b g
  = (tt,
     mkGlobals (uint16_t (text_x g - (text_x_add - 1))) (uint16_t (n g - 1)),
     [ Set_Draw_color BLUE;
       Fill_Rectangle
         (int16_t (uint16_t (text_x g - (text_x_add - 1))))
         (int16_t text_y)
         (int16_t (uint16_t (text_x g - (text_x_add - 1)) + text_x_add - 1))
         (int16_t (text_y + text_y_add - 2)) ]).
Proof.
  intros Hn. unfold dispatch. cbn [Nat.ltb Nat.leb Nat.eqb].
  unfold bind at 1. unfold read_n at 1.
  apply Z.gt_lt_iff in Hn. apply Z.gtb_gt in Hn. rewrite Hn.
  reflexivity.
Qed.

Lemma dispatch_delete_empty inp b g :
  n g <= 0 -> dispatch inp 14 b g = (tt, g, []).
Proof.
  intros Hn. unfold dispatch. cbn [Nat.ltb Nat.leb Nat.eqb].
  unfold bind at 1. unfold read_n at 1.
  replace (n g >? 0) with false; [reflexivity|].
  symmetry. rewrite Z.gtb_ltb. apply Z.ltb_ge. exact Hn.
Qed.

Lemma dispatch_beyond inp i b g :
  (14 < i)%nat -> dispatch inp i b g = (tt, g, []).
Proof.
  intros Hi. unfold dispatch.
  replace (i <? 12)%nat with false by (symmetry; apply Nat.ltb_ge; lia).
  replace (i =? 12)%nat with false by (symmetry; apply Nat.eqb_neq; lia).
  replace (i =? 13)%nat with false by (symmetry; apply Nat.eqb_neq; lia).
  replace (i =? 14)%nat with false by (symmetry; apply Nat.eqb_neq; lia).
  reflexivity.
Qed.

Lemma press_run inp i b g :
  press inp (i, b) g
  = (tt, state_of (dispatch inp i b g),
     flashed b ++ trace_of (dispatch inp i b g)).
Proof.
  unfold press. simpl fst. simpl snd. rewrite bind_unit, flash_run.
  reflexivity.
Qed.

(** ** The loop as a sequence of presses *)

Lemma presses_cons inp ib rest g :
  presses inp (ib :: rest) g
  = (tt, state_of (presses inp rest (state_of (press inp ib g))),
     trace_of (press inp ib g)
     ++ trace_of (presses inp rest (state_of (press inp ib g)))).
Proof. cbn [presses]. apply bind_unit. Qed.

Lemma presses_single inp ib g : presses inp [ib] g = press inp ib g.
Proof.
  rewrite presses_cons. cbn [presses]. unfold ret.
  cbn [state_of trace_of fst snd]. rewrite app_nil_r.
  symmetry. apply result_eta.
Qed.

Lemma presses_app inp l1 l2 g :
  presses inp (l1 ++ l2) g
  = (tt, state_of (presses inp l2 (state_of (presses inp l1 g))),
     trace_of (presses inp l1 g)
     ++ trace_of (presses inp l2 (state_of (presses inp l1 g)))).
Proof.
  revert g. induction l1 as [|ib l1 IH]; intros g.
  - cbn [app presses]. unfold ret. cbn [state_of trace_of fst snd app].
    apply result_eta.
  - rewrite <- app_comm_cons, !presses_cons, IH.
    cbn [state_of trace_of fst snd]. rewrite app_assoc. reflexivity.
Qed.

Lemma on_button_hit inp px py i b g :
  hit b px py = true -> on_button inp px py i b g = press inp (i, b) g.
Proof. intros H. unfold on_button. rewrite H. reflexivity. Qed.

Lemma on_button_miss inp px py i b g :
  hit b px py = false -> on_button inp px py i b g = (tt, g, []).
Proof. intros H. unfold on_button. rewrite H. reflexivity. Qed.

Lemma for_buttons_presses inp px py bs i g :
  for_buttons (on_button inp px py) i bs g
  = presses inp (hits_from i bs px py) g.
Proof.
  revert i g. induction bs as [|b rest IH]; intros i g; [reflexivity|].
  cbn [for_buttons hits_from]. rewrite bind_unit.
  destruct (hit b px py) eqn:Hb.
  - rewrite !(on_button_hit inp px py i b g Hb), presses_cons, IH.
    reflexivity.
  - rewrite !(on_button_miss inp px py i b g Hb).
    cbn [state_of trace_of fst snd app].
    rewrite IH. symmetry. apply result_eta.
Qed.

Lemma loop_over_ignored table inp g :
  qualifies (sample inp) = false ->
  loop_over table inp g = (tt, g, sampling (sample inp)).
Proof.
  intros Hq. unfold loop_over. rewrite !bind_unit, Hq. reflexivity.
Qed.

Lemma loop_over_qualified table inp g :
  qualifies (sample inp) = true ->
  loop_over table inp g
  = (tt,
     state_of (presses inp
                 (hits_from 0 table
                    (mapped_x (sample inp)) (mapped_y (sample inp))) g),
     sampling (sample inp)
     ++ trace_of (presses inp
                    (hits_from 0 table
                       (mapped_x (sample inp)) (mapped_y (sample inp))) g)).
Proof.
  intros Hq. unfold loop_over. rewrite !bind_unit, Hq.
  unfold call. cbn [state_of trace_of fst snd].
  rewrite for_buttons_presses. reflexivity.
Qed.

Lemma loop_qualified inp g :
  qualifies (sample inp) = true ->
  loop inp g
  = (tt,
     state_of (presses inp
                 (hits (mapped_x (sample inp)) (mapped_y (sample inp))) g),
     sampling (sample inp)
     ++ trace_of (presses inp
                    (hits (mapped_x (sample inp)) (mapped_y (sample inp))) g)).
Proof. unfold loop, hits. apply loop_over_qualified. Qed.

Lemma run_cons inp rest g :
  run (inp :: rest) g
  = (tt, state_of (run rest (state_of (loop inp g))),
     trace_of (loop inp g) ++ trace_of (run rest (state_of (loop inp g)))).
Proof. cbn [run]. apply bind_unit. Qed.

(** ** Membership in the list of matched buttons *)

Lemma hits_from_sound i bs px py j b :
  In (j, b) (hits_from i bs px py) ->
  hit b px py = true /\ (i <= j)%nat /\ nth_error bs (j - i) = Some b.
Proof.
  revert i. induction bs as [|c rest IH]; intros i H; [contradiction|].
  cbn [hits_from] in H. destruct (hit c px py) eqn:Hc.
  - destruct H as [H|H].
    + inversion H; subst. rewrite Nat.sub_diag. auto.
    + apply IH in H. destruct H as (Hh & Hle & Hn).
      split; [exact Hh|]. split; [lia|].
      replace (j - i)%nat with (S (j - S i)) by lia. exact Hn.
  - apply IH in H. destruct H as (Hh & Hle & Hn).
    split; [exact Hh|]. split; [lia|].
    replace (j - i)%nat with (S (j - S i)) by lia. exact Hn.
Qed.

Lemma hits_from_complete i bs px py k b :
  nth_error bs k = Some b -> hit b px py = true ->
  In ((i + k)%nat, b) (hits_from i bs px py).
Proof.
  revert i k. induction bs as [|c rest IH]; intros i k Hn Hh.
  - destruct k; discriminate.
  - cbn [hits_from]. destruct k as [|k].
    + inversion Hn; subst. rewrite Hh, Nat.add_0_r. left. reflexivity.
    + replace (i + S k)%nat with (S i + k)%nat by lia.
      destruct (hit c px py); [right|]; apply IH; assumption.
Qed.

(** ** Geometry of the fixed grid *)

Lemma is_pressed_open x1 y1 x2 y2 px py :
  is_pressed x1 y1 x2 y2 px py = true
  <-> (x1 < px < x2) /\ (y1 < py < y2).
Proof.
  unfold is_pressed. rewrite !andb_true_iff, !Z.gtb_ltb, !Z.ltb_lt. tauto.
Qed.

Lemma phone_button_squares :
  Forall (fun b => int16_t (button_x b - BUTTON_R) = button_x b - BUTTON_R
                   /\ int16_t (button_x b + BUTTON_R) = button_x b + BUTTON_R
                   /\ int16_t (button_y b - BUTTON_R) = button_y b - BUTTON_R
                   /\ int16_t (button_y b + BUTTON_R) = button_y b + BUTTON_R)
         phone_button.
Proof. repeat constructor. Qed.

(** [eval_hit] replaces the hit test of a concrete button by [is_pressed]
    on the evaluated corners of its square. *)
Ltac eval_hit :=
  repeat match goal with
         | |- context [hit ?b ?px ?py] =>
             let va := eval vm_compute in (int16_t (button_x b - BUTTON_R)) in
             let vb := eval vm_compute in (int16_t (button_y b - BUTTON_R)) in
             let vc := eval vm_compute in (int16_t (button_x b + BUTTON_R)) in
             let vd := eval vm_compute in (int16_t (button_y b + BUTTON_R)) in
             change (hit b px py) with (is_pressed va vb vc vd px py)
         end.

Ltac exclusive_pair :=
  unfold exclusive; eval_hit;
  let H := fresh in
  intros H; apply not_true_is_false; intros ?;
  rewrite is_pressed_open in *; lia.

(** Any two distinct buttons of the table have disjoint squares. *)
Lemma phone_button_exclusive px py :
  ForallOrdPairs (exclusive px py) phone_button.
Proof.
  unfold phone_button.
  repeat (apply FOP_cons; [repeat (apply Forall_cons; [exclusive_pair|]);
                           apply Forall_nil|]).
  apply FOP_nil.
Qed.

Lemma hits_from_none i bs px py :
  Forall (fun c => hit c px py = false) bs -> hits_from i bs px py = [].
Proof.
  intros H. revert i. induction H as [|c rest Hc _ IH]; intros i.
  - reflexivity.
  - cbn [hits_from]. rewrite Hc. apply IH.
Qed.

Lemma hits_from_first i bs px py :
  ForallOrdPairs (exclusive px py) bs ->
  hits_from i bs px py
  = match first_hit_from i bs px py with Some ib => [ib] | None => [] end.
Proof.
  intros H. revert i. induction H as [|b rest Hb _ IH]; intros i.
  - reflexivity.
  - cbn [hits_from first_hit_from]. destruct (hit b px py) eqn:E.
    + f_equal. apply hits_from_none.
      eapply Forall_impl; [|exact Hb]. intros c Hc. exact (Hc E).
    + apply IH.
Qed.

Lemma grid_disjoint px py :
  hits px py
  = match first_hit px py with Some ib => [ib] | None => [] end.
Proof. apply hits_from_first, phone_button_exclusive. Qed.

Lemma hit_inside b px py :
  In b phone_button ->
  hit b px py = true
  <-> (button_x b - BUTTON_R < px < button_x b + BUTTON_R)
      /\ (button_y b - BUTTON_R < py < button_y b + BUTTON_R).
Proof.
  intros Hb.
  destruct (proj1 (Forall_forall _ _) phone_button_squares b Hb)
    as (E1 & E2 & E3 & E4).
  unfold hit. rewrite is_pressed_open, E1, E2, E3, E4. tauto.
Qed.

Lemma hits_of_button i b px py :
  nth_error phone_button i = Some b -> hit b px py = true ->
  hits px py = [(i, b)] /\ first_hit px py = Some (i, b).
Proof.
  intros Hn Hh.
  pose proof (hits_from_complete 0 phone_button px py i b Hn Hh) as Hin.
  fold (hits px py) in Hin. cbn [Nat.add] in Hin.
  pose proof (grid_disjoint px py) as Hg.
  destruct (first_hit px py) as [ib|]; rewrite Hg in Hin.
  - destruct Hin as [->|[]]. rewrite Hg. split; reflexivity.
  - contradiction.
Qed.

(** ** Edges of a square *)

Lemma is_pressed_edge x1 y1 x2 y2 px py :
  px = x1 \/ px = x2 \/ py = y1 \/ py = y2 ->
  is_pressed x1 y1 x2 y2 px py = false.
Proof.
  intros H. apply not_true_is_false. rewrite is_pressed_open. lia.
Qed.

Ltac misses_all :=
  repeat (apply Forall_cons;
          [eval_hit; apply not_true_is_false; intros ?;
           rewrite is_pressed_open in *; lia|]);
  apply Forall_nil.

Lemma edge_misses_all b px py :
  In b phone_button ->
  px = button_x b - BUTTON_R \/ px = button_x b + BUTTON_R
  \/ py = button_y b - BUTTON_R \/ py = button_y b + BUTTON_R ->
  Forall (fun c => hit c px py = false) phone_button.
Proof.
  intros Hb He. unfold phone_button in Hb. cbn [In] in Hb.
  repeat (destruct Hb as [<-|Hb];
          [vm_compute in He; unfold phone_button;
           destruct He as [->|[->|[->| ->]]]; misses_all|]).
  contradiction.
Qed.

(** ** The invariant is kept by every arm *)

Lemma wrap_small v : 0 <= v < 65536 -> uint16_t v = v.
Proof. intros H. unfold uint16_t. apply Z.mod_small. exact H. Qed.

Lemma dispatch_state inp i b g :
  cursor_tracks_count g ->
  state_of (dispatch inp i b g)
  = if (i <? 12)%nat
    then if n g <? 13
         then mkGlobals (text_x g + (text_x_add - 1)) (n g + 1) else g
    else if (i =? 14)%nat
         then if n g >? 0
              then mkGlobals (text_x g - (text_x_add - 1)) (n g - 1) else g
         else g.
Proof.
  intros [Hn Hx]. rewrite text_x_add_value in *.
  destruct (Nat.ltb_spec i 12) as [Hi|Hi].
  - destruct (Z.ltb_spec (n g) 13) as [Hc|Hc].
    + rewrite dispatch_digit_append by assumption.
      cbn [state_of fst snd]. rewrite text_x_add_value.
      rewrite !wrap_small by lia. reflexivity.
    + rewrite dispatch_digit_full by assumption. reflexivity.
  - assert (i = 12 \/ i = 13 \/ i = 14 \/ 14 < i)%nat as Hcase by lia.
    destruct Hcase as [->|[->|[->|Hbig]]].
    + reflexivity.
    + rewrite dispatch_call. reflexivity.
    + cbn [Nat.eqb]. rewrite Z.gtb_ltb.
      destruct (Z.ltb_spec 0 (n g)) as [Hc|Hc].
      * rewrite dispatch_delete_nonempty by assumption.
        cbn [state_of fst snd]. rewrite text_x_add_value.
        rewrite !wrap_small by lia. reflexivity.
      * rewrite dispatch_delete_empty by assumption. reflexivity.
    + rewrite dispatch_beyond by assumption.
      replace (i =? 14)%nat with false by (symmetry; apply Nat.eqb_neq; lia).
      reflexivity.
Qed.

Lemma dispatch_invariant inp i b g :
  cursor_tracks_count g -> cursor_tracks_count (state_of (dispatch inp i b g)).
Proof.
  intros Hg. rewrite dispatch_state by assumption.
  destruct Hg as [Hn Hx]. unfold cursor_tracks_count.
  rewrite text_x_add_value in *. rewrite Z.gtb_ltb.
  destruct (i <? 12)%nat; [|destruct (i =? 14)%nat].
  - destruct (Z.ltb_spec (n g) 13); cbn [n text_x]; lia.
  - destruct (Z.ltb_spec 0 (n g)); cbn [n text_x]; lia.
  - lia.
Qed.

Lemma press_state inp i b g :
  state_of (press inp (i, b) g) = state_of (dispatch inp i b g).
Proof. rewrite press_run. reflexivity. Qed.

Lemma press_invariant inp ib g :
  cursor_tracks_count g -> cursor_tracks_count (state_of (press inp ib g)).
Proof.
  destruct ib as [i b]. rewrite press_state. apply dispatch_invariant.
Qed.

Lemma presses_invariant inp l g :
  cursor_tracks_count g -> cursor_tracks_count (state_of (presses inp l g)).
Proof.
  revert g. induction l as [|ib rest IH]; intros g Hg; [exact Hg|].
  rewrite presses_cons. cbn [state_of fst snd].
  apply IH, press_invariant, Hg.
Qed.

Lemma loop_invariant inp g :
  cursor_tracks_count g -> cursor_tracks_count (state_of (loop inp g)).
Proof.
  intros Hg. destruct (qualifies (sample inp)) eqn:Hq.
  - rewrite loop_qualified, state_of_mk by assumption.
    apply presses_invariant, Hg.
  - unfold loop. rewrite loop_over_ignored, state_of_mk by assumption.
    exact Hg.
Qed.

Lemma initial_invariant : cursor_tracks_count initial.
Proof. unfold cursor_tracks_count. rewrite text_x_add_value. cbn. lia. Qed.

Lemma run_invariant inps g :
  cursor_tracks_count g -> cursor_tracks_count (state_of (run inps g)).
Proof.
  revert g. induction inps as [|inp rest IH]; intros g Hg; [exact Hg|].
  rewrite run_cons, state_of_mk. apply IH, loop_invariant, Hg.
Qed.

(** ** Counting appends and deletes *)

Lemma globals_eta g : g = mkGlobals (text_x g) (n g).
Proof. destruct g. reflexivity. Qed.

Lemma invariant_determines g :
  cursor_tracks_count g -> g = mkGlobals (10 + 17 * n g) (n g).
Proof.
  intros [_ Hx]. rewrite text_x_add_value in Hx.
  rewrite (globals_eta g) at 1. f_equal. lia.
Qed.

Lemma digit_press_count inp i b g :
  (i < 12)%nat -> cursor_tracks_count g ->
  n (state_of (press inp (i, b) g)) = Z.min (n g + 1) 13.
Proof.
  intros Hi Hg. rewrite press_state, dispatch_state by assumption.
  apply Nat.ltb_lt in Hi. rewrite Hi. destruct Hg as [Hn _].
  destruct (Z.ltb_spec (n g) 13); cbn [n]; lia.
Qed.

Lemma delete_press_count inp b g :
  cursor_tracks_count g ->
  n (state_of (press inp (14%nat, b) g)) = Z.max (n g - 1) 0.
Proof.
  intros Hg. rewrite press_state, dispatch_state by assumption.
  cbn [Nat.ltb Nat.leb Nat.eqb]. rewrite Z.gtb_ltb. destruct Hg as [Hn _].
  destruct (Z.ltb_spec 0 (n g)); cbn [n]; lia.
Qed.

Lemma digit_presses_count inp keys g :
  digit_keys keys -> cursor_tracks_count g ->
  n (state_of (presses inp keys g))
  = Z.min (n g + Z.of_nat (List.length keys)) 13.
Proof.
  intros Hk. revert g. induction Hk as [|[i b] rest Hi _ IH]; intros g Hg.
  - cbn [presses List.length Z.of_nat]. unfold ret. rewrite state_of_mk.
    destruct Hg as [Hn _]. lia.
  - rewrite presses_cons, state_of_mk.
    rewrite IH by (apply press_invariant; exact Hg).
    rewrite digit_press_count by assumption.
    cbn [List.length]. destruct Hg as [Hn _]. lia.
Qed.

Lemma deletes_count inp dele k g :
  cursor_tracks_count g ->
  n (state_of (presses inp (deletes dele k) g)) = Z.max (n g - Z.of_nat k) 0.
Proof.
  revert g. induction k as [|k IH]; intros g Hg.
  - cbn [deletes repeat presses Z.of_nat]. unfold ret. rewrite state_of_mk.
    destruct Hg as [Hn _]. lia.
  - unfold deletes. cbn [repeat]. fold (deletes dele k).
    rewrite presses_cons, state_of_mk.
    rewrite IH by (apply press_invariant; exact Hg).
    rewrite delete_press_count by assumption.
    destruct Hg as [Hn _]. lia.
Qed.

(** ** Command lines on the modem link *)

Lemma modem_commands_app t1 t2 :
  modem_commands (t1 ++ t2) = modem_commands t1 ++ modem_commands t2.
Proof. apply flat_map_app. Qed.

Lemma modem_commands_flashed b : modem_commands (flashed b) = [].
Proof. reflexivity. Qed.

Lemma modem_commands_relayed p : modem_commands (relayed p) = [].
Proof.
  unfold relayed. cbn [modem_commands flat_map app].
  fold (modem_commands
          (List.map mySerial_write (from_console p)
           ++ List.map Serial_write (from_modem p))).
  rewrite modem_commands_app.
  assert (forall l, modem_commands (List.map mySerial_write l) = []) as E1
    by (induction l; [reflexivity|assumption]).
  assert (forall l, modem_commands (List.map Serial_write l) = []) as E2
    by (induction l; [reflexivity|assumption]).
  rewrite E1, E2. reflexivity.
Qed.

Lemma getPoint_free_relayed p : existsb is_getPoint (relayed p) = false.
Proof.
  unfold relayed. cbn [existsb is_getPoint orb]. rewrite existsb_app.
  apply orb_false_iff. split.
  - induction (from_console p); [reflexivity|assumption].
  - induction (from_modem p); [reflexivity|assumption].
Qed.

Lemma dispatch_commands inp i b g :
  modem_commands (trace_of (dispatch inp i b g))
  = if (i =? 13)%nat
    then ["ATD+916374354166;"%string; "ATH"%string] else [].
Proof.
  destruct (Nat.lt_ge_cases i 12) as [Hi|Hi].
  - replace (i =? 13)%nat with false by (symmetry; apply Nat.eqb_neq; lia).
    destruct (Z.lt_ge_cases (n g) 13).
    + rewrite dispatch_digit_append by assumption. reflexivity.
    + rewrite dispatch_digit_full by assumption. reflexivity.
  - assert (i = 12 \/ i = 13 \/ i = 14 \/ 14 < i)%nat as Hcase by lia.
    destruct Hcase as [->|[->|[->|Hbig]]].
    + reflexivity.
    + rewrite dispatch_call, trace_of_mk.
      rewrite !modem_commands_app, !modem_commands_relayed. reflexivity.
    + destruct (Z.lt_ge_cases 0 (n g)).
      * rewrite dispatch_delete_nonempty by assumption. reflexivity.
      * rewrite dispatch_delete_empty by assumption. reflexivity.
    + rewrite dispatch_beyond by assumption.
      replace (i =? 13)%nat with false by (symmetry; apply Nat.eqb_neq; lia).
      reflexivity.
Qed.

Lemma press_commands inp i b g :
  modem_commands (trace_of (press inp (i, b) g))
  = if (i =? 13)%nat
    then ["ATD+916374354166;"%string; "ATH"%string] else [].
Proof.
  rewrite press_run, trace_of_mk, modem_commands_app, modem_commands_flashed.
  apply dispatch_commands.
Qed.

Lemma press_fixed inp ib g :
  Forall fixed_command (modem_commands (trace_of (press inp ib g))).
Proof.
  destruct ib as [i b]. rewrite press_commands.
  destruct (i =? 13)%nat; [|constructor].
  apply Forall_cons; [left; reflexivity|].
  apply Forall_cons; [right; reflexivity|constructor].
Qed.

Lemma presses_fixed inp l g :
  Forall fixed_command (modem_commands (trace_of (presses inp l g))).
Proof.
  revert g. induction l as [|ib rest IH]; intros g; [constructor|].
  rewrite presses_cons, trace_of_mk, modem_commands_app.
  apply Forall_app. split; [apply press_fixed|apply IH].
Qed.

Lemma loop_fixed inp g :
  Forall fixed_command (modem_commands (trace_of (loop inp g))).
Proof.
  destruct (qualifies (sample inp)) eqn:Hq.
  - rewrite loop_qualified, trace_of_mk, modem_commands_app by assumption.
    apply Forall_app. split; [constructor|apply presses_fixed].
  - unfold loop. rewrite loop_over_ignored, trace_of_mk by assumption.
    constructor.
Qed.

Lemma run_fixed inps g :
  Forall fixed_command (modem_commands (trace_of (run inps g))).
Proof.
  revert g. induction inps as [|inp rest IH]; intros g; [constructor|].
  rewrite run_cons, trace_of_mk, modem_commands_app.
  apply Forall_app. split; [apply loop_fixed|apply IH].
Qed.

(** ** A touch inside one button *)

Lemma loop_on_button inp g i b :
  qualifies (sample inp) = true ->
  nth_error phone_button i = Some b ->
  hit b (mapped_x (sample inp)) (mapped_y (sample inp)) = true ->
  loop inp g
  = (tt, state_of (dispatch inp i b g),
     sampling (sample inp) ++ flashed b ++ trace_of (dispatch inp i b g)).
Proof.
  intros Hq Hn Hh. rewrite loop_qualified by assumption.
  destruct (hits_of_button i b _ _ Hn Hh) as [E _]. rewrite E.
  rewrite presses_single, press_run, state_of_mk, trace_of_mk. reflexivity.
Qed.

(** * Properties of the sketch *)

Lemma gate_closed p :
  z p <= MINPRESSURE \/ z p >= MAXPRESSURE -> qualifies p = false.
Proof.
  intros H. unfold qualifies. apply andb_false_iff.
  rewrite Z.gtb_ltb, !Z.ltb_ge. lia.
Qed.

(** C1: a touch sample whose pressure is at most [MINPRESSURE] (10) or at
    least [MAXPRESSURE] (1000) is ignored by the loop pass: the result
    does not depend on the button table (no lookup takes place), the
    globals [text_x] and [n] are returned unchanged, and the only device
    calls are those that take the sample, none of them on the modem
    link. *)
Theorem out_of_range_pressure_ignored
    (table : list button_info) (inp : input) (g : globals) :
  z (sample inp) <= MINPRESSURE \/ z (sample inp) >= MAXPRESSURE ->
  loop_over table inp g = (tt, g, sampling (sample inp))
  /\ loop inp g = (tt, g, sampling (sample inp))
  /\ filter on_modem_link (trace_of (loop inp g)) = [].
Proof.
  intros H. apply gate_closed in H.
  assert (loop inp g = (tt, g, sampling (sample inp))) as E
    by (apply loop_over_ignored; exact H).
  split; [apply loop_over_ignored; exact H|].
  split; [exact E|].
  rewrite E, trace_of_mk. reflexivity.
Qed.

Lemma out_of_range_pressure_ignored_witness :
  (z (sample touch_light) <= MINPRESSURE
   \/ z (sample touch_light) >= MAXPRESSURE)
  /\ (loop_over [] touch_light initial
      = (tt, initial, sampling (sample touch_light))
      /\ loop touch_light initial
         = (tt, initial, sampling (sample touch_light))
      /\ filter on_modem_link (trace_of (loop touch_light initial)) = []).
Proof.
  split.
  - left. intros H. discriminate H.
  - apply (out_of_range_pressure_ignored [] touch_light initial).
    left. intros H. discriminate H.
Defined.

(** C2: a mapped point strictly inside the bounding square of a button of
    the table selects that button and no other: the loop body runs for
    it alone, it is the first match in layout order, no other button of
    the table contains the point, and the whole [for] loop amounts to
    the press of that one button. *)
Theorem single_button_selected
    (i : nat) (b : button_info) (px py : Z) :
  nth_error phone_button i = Some b ->
  button_x b - BUTTON_R < px < button_x b + BUTTON_R ->
  button_y b - BUTTON_R < py < button_y b + BUTTON_R ->
  hits px py = [(i, b)]
  /\ first_hit px py = Some (i, b)
  /\ (forall j c, nth_error phone_button j = Some c ->
                  hit c px py = true -> j = i /\ c = b)
  /\ (forall inp g,
        for_buttons (on_button inp px py) 0 phone_button g
        = press inp (i, b) g).
Proof.
  intros Hn Hx Hy.
  assert (hit b px py = true) as Hh.
  { apply hit_inside; [eapply nth_error_In; exact Hn | split; assumption]. }
  destruct (hits_of_button i b px py Hn Hh) as [E1 E2].
  split; [exact E1|]. split; [exact E2|]. split.
  - intros j c Hj Hc.
    destruct (hits_of_button j c px py Hj Hc) as [E3 _].
    rewrite E1 in E3. inversion E3. split; reflexivity.
  - intros inp g. rewrite for_buttons_presses.
    fold (hits px py). rewrite E1. apply presses_single.
Qed.

Lemma single_button_selected_witness :
  (nth_error phone_button 13 = Some button_call
   /\ button_x button_call - BUTTON_R < 119 < button_x button_call + BUTTON_R
   /\ button_y button_call - BUTTON_R < 288 < button_y button_call + BUTTON_R)
  /\ (hits 119 288 = [(13%nat, button_call)]
      /\ first_hit 119 288 = Some (13%nat, button_call)
      /\ (forall j c, nth_error phone_button j = Some c ->
                      hit c 119 288 = true -> j = 13%nat /\ c = button_call)
      /\ (forall inp g,
            for_buttons (on_button inp 119 288) 0 phone_button g
            = press inp (13%nat, button_call) g)).
Proof.
  split.
  - split; [reflexivity|]. split; split; reflexivity.
  - apply (single_button_selected 13 button_call 119 288).
    + reflexivity.
    + split; reflexivity.
    + split; reflexivity.
Defined.

(** C3: a mapped point exactly on an edge of a button's bounding square
    (px equal to centre minus or plus the radius, or py likewise) does
    not select that button: the hit test is strict on all four edges.
    On the fixed grid such a point selects no button at all, so the loop
    body does nothing for it. *)
Theorem boundary_not_selected
    (i : nat) (b : button_info) (px py : Z) :
  nth_error phone_button i = Some b ->
  px = button_x b - BUTTON_R \/ px = button_x b + BUTTON_R
  \/ py = button_y b - BUTTON_R \/ py = button_y b + BUTTON_R ->
  hit b px py = false
  /\ ~ In (i, b) (hits px py)
  /\ hits px py = []
  /\ (forall inp g, on_button inp px py i b g = (tt, g, [])).
Proof.
  intros Hn He.
  pose proof (nth_error_In _ _ Hn) as Hb.
  pose proof (edge_misses_all b px py Hb He) as Hall.
  assert (hit b px py = false) as Hh
    by (exact (proj1 (Forall_forall _ _) Hall b Hb)).
  assert (hits px py = []) as E by (apply hits_from_none; exact Hall).
  split; [exact Hh|]. split; [rewrite E; intros []|].
  split; [exact E|].
  intros inp g. apply on_button_miss. exact Hh.
Qed.

Lemma boundary_not_selected_witness :
  (nth_error phone_button 0 = Some button_one
   /\ 19 = button_x button_one - BUTTON_R)
  /\ (hit button_one 19 69 = false
      /\ ~ In (0%nat, button_one) (hits 19 69)
      /\ hits 19 69 = []
      /\ (forall inp g, on_button inp 19 69 0 button_one g = (tt, g, []))).
Proof.
  split.
  - split; reflexivity.
  - apply (boundary_not_selected 0 button_one 19 69).
    + reflexivity.
    + left. reflexivity.
Defined.

(** C4: the count [n] of the dial buffer never exceeds 13, whatever the
    sequence of touches (or of button presses) since start-up; a press
    of a digit, [#] or [*] button when the count is 13 changes neither
    [n] nor [text_x] and draws nothing but the button flash; a press of
    the delete button when the count is 0 likewise. *)
Theorem dial_buffer_bounded
    (inps : list input) (l : list (nat * button_info))
    (inp : input) (i : nat) (b : button_info) (g : globals) :
  n (state_of (run inps initial)) <= 13
  /\ n (state_of (presses inp l initial)) <= 13
  /\ ((i < 12)%nat -> n g = 13 -> press inp (i, b) g = (tt, g, flashed b))
  /\ (n g = 0 -> press inp (14%nat, b) g = (tt, g, flashed b)).
Proof.
  split; [apply (run_invariant inps initial initial_invariant)|].
  split; [apply (presses_invariant inp l initial initial_invariant)|].
  split.
  - intros Hi Hn. rewrite press_run, dispatch_digit_full by lia.
    rewrite state_of_mk, trace_of_mk, app_nil_r. reflexivity.
  - intros Hn. rewrite press_run, dispatch_delete_empty by lia.
    rewrite state_of_mk, trace_of_mk, app_nil_r. reflexivity.
Qed.

Lemma dial_buffer_bounded_witness :
  ((0 < 12)%nat /\ n (mkGlobals 231 13) = 13
   /\ press touch_one (0%nat, button_one) (mkGlobals 231 13)
      = (tt, mkGlobals 231 13, flashed button_one))
  /\ (n initial = 0
      /\ press touch_one (14%nat, button_dele) initial
         = (tt, initial, flashed button_dele)).
Proof.
  split.
  - split; [apply Nat.ltb_lt; reflexivity|]. split; [reflexivity|].
    apply (dial_buffer_bounded [] [] touch_one 0 button_one
             (mkGlobals 231 13)).
    + apply Nat.ltb_lt. reflexivity.
    + reflexivity.
  - split; [reflexivity|].
    apply (dial_buffer_bounded [] [] touch_one 0 button_dele initial).
    reflexivity.
Defined.

(** C5: from the initial state (count 0, cursor at x = 10), pressing N
    digit keys and then delete N times brings [n] back to 0 and [text_x]
    back to 10, for every N.  The N key presses append min(N, 13)
    characters; each delete that removes one of them moves the cursor
    back by exactly the advance [text_x_add - 1] of one character, so
    for N up to 13 every one of the N deletes does. *)
Theorem append_then_delete_round_trip
    (inp : input) (keys : list (nat * button_info)) (dele : button_info)
    (k : nat) :
  digit_keys keys ->
  n (filled inp keys) = Z.min (Z.of_nat (List.length keys)) 13
  /\ after_deletes inp keys dele (List.length keys) = initial
  /\ (Z.of_nat k < n (filled inp keys) ->
      text_x (after_deletes inp keys dele (S k))
      = text_x (after_deletes inp keys dele k) - (text_x_add - 1)
      /\ n (after_deletes inp keys dele (S k))
         = n (after_deletes inp keys dele k) - 1).
Proof.
  intros Hk.
  assert (cursor_tracks_count (filled inp keys)) as Hf
    by (apply presses_invariant, initial_invariant).
  assert (n (filled inp keys) = Z.min (Z.of_nat (List.length keys)) 13) as Hn.
  { unfold filled.
    rewrite digit_presses_count by (assumption || apply initial_invariant).
    reflexivity. }
  assert (forall j, cursor_tracks_count (after_deletes inp keys dele j)) as Hd
    by (intros j; apply presses_invariant, Hf).
  assert (forall j, n (after_deletes inp keys dele j)
                    = Z.max (n (filled inp keys) - Z.of_nat j) 0) as Hc
    by (intros j; apply deletes_count, Hf).
  split; [exact Hn|]. split.
  - rewrite (invariant_determines _ (Hd (List.length keys))), Hc.
    replace (Z.max _ 0) with 0 by lia. reflexivity.
  - intros Hlt.
    rewrite (invariant_determines _ (Hd (S k))).
    rewrite (invariant_determines _ (Hd k)) at 1 2.
    cbn [text_x n]. rewrite !Hc, text_x_add_value. lia.
Qed.

Lemma append_then_delete_round_trip_witness :
  (digit_keys [(0%nat, button_one); (0%nat, button_one)]
   /\ Z.of_nat 1
      < n (filled touch_one [(0%nat, button_one); (0%nat, button_one)]))
  /\ (n (filled touch_one [(0%nat, button_one); (0%nat, button_one)])
      = Z.min (Z.of_nat 2) 13
      /\ after_deletes touch_one [(0%nat, button_one); (0%nat, button_one)]
           button_dele 2 = initial
      /\ text_x (after_deletes touch_one
                   [(0%nat, button_one); (0%nat, button_one)] button_dele 2)
         = text_x (after_deletes touch_one
                     [(0%nat, button_one); (0%nat, button_one)] button_dele 1)
           - (text_x_add - 1)
      /\ n (after_deletes touch_one
              [(0%nat, button_one); (0%nat, button_one)] button_dele 2)
         = n (after_deletes touch_one
                [(0%nat, button_one); (0%nat, button_one)] button_dele 1)
           - 1).
Proof.
  assert (digit_keys [(0%nat, button_one); (0%nat, button_one)]) as Hk.
  { unfold digit_keys.
    apply Forall_cons; [apply Nat.ltb_lt; reflexivity|].
    apply Forall_cons; [apply Nat.ltb_lt; reflexivity|apply Forall_nil]. }
  assert (Z.of_nat 1
          < n (filled touch_one [(0%nat, button_one); (0%nat, button_one)]))
    as Hlt by reflexivity.
  split; [split; [exact Hk|exact Hlt]|].
  destruct (append_then_delete_round_trip touch_one
              [(0%nat, button_one); (0%nat, button_one)] button_dele 1 Hk)
    as (H1 & H2 & H3).
  split; [exact H1|]. split; [exact H2|]. exact (H3 Hlt).
Defined.

(** C6: a touch that matches the "call" button makes the loop pass clear
    the banner and print "Calling...", then print the one dial line
    [ATD+916374354166;] (which matches [ATD\+?\d+;] and goes out
    terminated by a newline), relay, hold for 20000 ms, print the one
    line [ATH] and relay again; the globals are unchanged, these are the
    only two command lines, and no touch sample is taken between
    them. *)
Theorem call_press_sequence (inp : input) (g : globals) (b : button_info) :
  qualifies (sample inp) = true ->
  nth_error phone_button 13 = Some b ->
  hit b (mapped_x (sample inp)) (mapped_y (sample inp)) = true ->
  loop inp g
  = (tt, g,
     sampling (sample inp) ++ flashed b ++ banner "Calling..."
     ++ [mySerial_println "ATD+916374354166;"] ++ relayed (after_dial inp)
     ++ [delay 20000; mySerial_println "ATH"] ++ relayed (after_hangup inp))
  /\ modem_commands (trace_of (loop inp g))
     = ["ATD+916374354166;"%string; "ATH"%string]
  /\ matches_dial_pattern "ATD+916374354166;" = true
  /\ last_char (println_bytes "ATD+916374354166;") = Some LF
  /\ existsb is_getPoint (relayed (after_dial inp) ++ [delay 20000]) = false.
Proof.
  intros Hq Hn Hh.
  pose proof (loop_on_button inp g 13 b Hq Hn Hh) as E.
  rewrite dispatch_call, state_of_mk, trace_of_mk in E.
  split; [exact E|]. split.
  - rewrite E, trace_of_mk.
    rewrite !modem_commands_app, !modem_commands_relayed. reflexivity.
  - split; [reflexivity|]. split; [reflexivity|].
    rewrite existsb_app, getPoint_free_relayed. reflexivity.
Qed.

Lemma call_press_sequence_witness :
  (qualifies (sample touch_call) = true
   /\ nth_error phone_button 13 = Some button_call
   /\ hit button_call (mapped_x (sample touch_call))
        (mapped_y (sample touch_call)) = true)
  /\ (loop touch_call initial
      = (tt, initial,
         sampling (sample touch_call) ++ flashed button_call
         ++ banner "Calling..."
         ++ [mySerial_println "ATD+916374354166;"]
         ++ relayed (after_dial touch_call)
         ++ [delay 20000; mySerial_println "ATH"]
         ++ relayed (after_hangup touch_call))
      /\ modem_commands (trace_of (loop touch_call initial))
         = ["ATD+916374354166;"%string; "ATH"%string]
      /\ matches_dial_pattern "ATD+916374354166;" = true
      /\ last_char (println_bytes "ATD+916374354166;") = Some LF
      /\ existsb is_getPoint
           (relayed (after_dial touch_call) ++ [delay 20000]) = false).
Proof.
  split.
  - split; [reflexivity|]. split; reflexivity.
  - apply (call_press_sequence touch_call initial button_call); reflexivity.
Defined.

(** C7: a touch that matches the "end" button makes the loop pass clear
    the banner region and print "Calling ended"; nothing is put on the
    modem link, and [n] and [text_x] are unchanged. *)
Theorem end_press_banner_only (inp : input) (g : globals) (b : button_info) :
  qualifies (sample inp) = true ->
  nth_error phone_button 12 = Some b ->
  hit b (mapped_x (sample inp)) (mapped_y (sample inp)) = true ->
  loop inp g
  = (tt, g, sampling (sample inp) ++ flashed b ++ banner "Calling ended")
  /\ banner "Calling ended"
     = [ Set_Draw_color BLUE; Fill_Rectangle 0 33 239 42 ]
       ++ shown "Calling ended" CENTER 33 1 OLIVE BLACK true
  /\ filter on_modem_link (trace_of (loop inp g)) = []
  /\ n (state_of (loop inp g)) = n g
  /\ text_x (state_of (loop inp g)) = text_x g.
Proof.
  intros Hq Hn Hh.
  pose proof (loop_on_button inp g 12 b Hq Hn Hh) as E.
  rewrite dispatch_end, state_of_mk, trace_of_mk in E.
  split; [exact E|]. split; [reflexivity|].
  rewrite E, trace_of_mk, state_of_mk.
  split; [reflexivity|]. split; reflexivity.
Qed.

Lemma end_press_banner_only_witness :
  (qualifies (sample touch_end) = true
   /\ nth_error phone_button 12 = Some button_end
   /\ hit button_end (mapped_x (sample touch_end))
        (mapped_y (sample touch_end)) = true)
  /\ (loop touch_end initial
      = (tt, initial,
         sampling (sample touch_end) ++ flashed button_end
         ++ banner "Calling ended")
      /\ banner "Calling ended"
         = [ Set_Draw_color BLUE; Fill_Rectangle 0 33 239 42 ]
           ++ shown "Calling ended" CENTER 33 1 OLIVE BLACK true
      /\ filter on_modem_link (trace_of (loop touch_end initial)) = []
      /\ n (state_of (loop touch_end initial)) = n initial
      /\ text_x (state_of (loop touch_end initial)) = text_x initial).
Proof.
  split.
  - split; [reflexivity|]. split; reflexivity.
  - apply (end_press_banner_only touch_end initial button_end); reflexivity.
Defined.

(** C8: the number dialled is the literal of the sketch: a press of
    "call" prints the line [ATD+916374354166;] (then [ATH]) whatever the
    globals and whatever has been typed before, and over any run of the
    sketch every command line printed to the modem is one of these two
    literals, so none is ever built from the dial buffer. *)
Theorem dialed_number_fixed
    (inps : list input) (inp : input) (b : button_info) (g : globals) :
  modem_commands (trace_of (press inp (13%nat, b) g))
  = ["ATD+916374354166;"%string; "ATH"%string]
  /\ modem_commands
       (trace_of (press inp (13%nat, b) (state_of (run inps initial))))
     = modem_commands (trace_of (press inp (13%nat, b) initial))
  /\ Forall fixed_command (modem_commands (trace_of (run inps initial))).
Proof.
  split; [apply press_commands|].
  split; [rewrite !press_commands; reflexivity|].
  apply run_fixed.
Qed.

(** C9: after any number of loop passes from start-up, the cursor is at
    [text_x = 10 + n * (text_x_add - 1)], the advance [text_x_add - 1]
    being 17; hence the cursor is never left of x = 10, and a loop pass
    that moves the cursor right also increases the count. *)
Theorem cursor_tracks_count_always (inps : list input) (inp : input) :
  text_x (state_of (run inps initial))
  = 10 + n (state_of (run inps initial)) * (text_x_add - 1)
  /\ text_x_add - 1 = 17
  /\ 10 <= text_x (state_of (run inps initial))
  /\ (text_x (state_of (run inps initial))
      < text_x (state_of (loop inp (state_of (run inps initial)))) ->
      n (state_of (run inps initial))
      < n (state_of (loop inp (state_of (run inps initial))))).
Proof.
  pose proof (run_invariant inps initial initial_invariant) as Hg.
  pose proof (loop_invariant inp _ Hg) as Hg'.
  destruct Hg as [Hn Hx]. destruct Hg' as [Hn' Hx'].
  rewrite text_x_add_value in *.
  split; [exact Hx|]. split; [reflexivity|]. split; lia.
Qed.

Lemma cursor_tracks_count_always_witness :
  text_x (state_of (run [touch_one] initial))
  < text_x (state_of (loop touch_one (state_of (run [touch_one] initial))))
  /\ n (state_of (run [touch_one] initial))
     < n (state_of (loop touch_one (state_of (run [touch_one] initial)))).
Proof.
  assert (text_x (state_of (run [touch_one] initial))
          < text_x (state_of (loop touch_one
                                (state_of (run [touch_one] initial)))))
    as Hlt by reflexivity.
  split; [exact Hlt|].
  destruct (cursor_tracks_count_always [touch_one] touch_one)
    as (_ & _ & _ & H).
  exact (H Hlt).
Defined.

(** C10: the dial buffer holds exactly 13 characters: from start-up, a
    sequence of digit-key presses leaves [n] at the smaller of its length
    and 13, so the 13th press appends (drawing its glyph at x = 214 and
    moving the cursor to 231) while the 14th and later ones change
    nothing; and a press of "call" leaves [n] and [text_x] as they
    were. *)
Theorem capacity_is_thirteen
    (inp : input) (keys : list (nat * button_info))
    (i : nat) (b : button_info) (g : globals) :
  digit_keys keys -> (i < 12)%nat ->
  n (filled inp keys) = Z.min (Z.of_nat (List.length keys)) 13
  /\ text_x (filled inp keys)
     = 10 + 17 * Z.min (Z.of_nat (List.length keys)) 13
  /\ (List.length keys = 12%nat ->
      press inp (i, b) (filled inp keys)
      = (tt, mkGlobals 231 13,
         flashed b
         ++ shown (button_name b) 214 text_y (button_name_size b)
              GREENYELLOW BLACK true))
  /\ ((13 <= List.length keys)%nat ->
      filled inp keys = mkGlobals 231 13
      /\ press inp (i, b) (filled inp keys)
         = (tt, filled inp keys, flashed b))
  /\ n (state_of (press inp (13%nat, b) g)) = n g
  /\ text_x (state_of (press inp (13%nat, b) g)) = text_x g.
Proof.
  intros Hk Hi.
  assert (cursor_tracks_count (filled inp keys)) as Hf
    by (apply presses_invariant, initial_invariant).
  assert (n (filled inp keys) = Z.min (Z.of_nat (List.length keys)) 13) as Hn.
  { unfold filled.
    rewrite digit_presses_count by (assumption || apply initial_invariant).
    reflexivity. }
  pose proof (invariant_determines _ Hf) as Hg. rewrite Hn in Hg.
  split; [exact Hn|]. split; [rewrite Hg; reflexivity|]. split; [|split].
  - intros Hlen. rewrite Hlen in Hg.
    rewrite press_run, dispatch_digit_append by (rewrite ?Hg; cbn; lia).
    rewrite Hg. reflexivity.
  - intros Hlen. replace (Z.min _ 13) with 13 in Hg by lia.
    split; [exact Hg|].
    rewrite press_run, dispatch_digit_full by (rewrite ?Hg; cbn; lia).
    rewrite state_of_mk, trace_of_mk, app_nil_r. reflexivity.
  - rewrite press_run, dispatch_call, state_of_mk. split; reflexivity.
Qed.

Lemma capacity_is_thirteen_witness :
  (digit_keys (repeat (0%nat, button_one) 13) /\ (0 < 12)%nat
   /\ (13 <= List.length (repeat (0%nat, button_one) 13))%nat)
  /\ (n (filled touch_one (repeat (0%nat, button_one) 13)) = 13
      /\ filled touch_one (repeat (0%nat, button_one) 13) = mkGlobals 231 13
      /\ press touch_one (0%nat, button_one)
           (filled touch_one (repeat (0%nat, button_one) 13))
         = (tt, filled touch_one (repeat (0%nat, button_one) 13),
            flashed button_one)).
Proof.
  assert (digit_keys (repeat (0%nat, button_one) 13)) as Hk.
  { unfold digit_keys. cbn [repeat].
    repeat (apply Forall_cons; [apply Nat.ltb_lt; reflexivity|]).
    apply Forall_nil. }
  assert (0 < 12)%nat as Hi by (apply Nat.ltb_lt; reflexivity).
  assert (13 <= List.length (repeat (0%nat, button_one) 13))%nat as Hlen
    by (apply Nat.leb_le; reflexivity).
  split; [split; [exact Hk|split; [exact Hi|exact Hlen]]|].
  destruct (capacity_is_thirteen touch_one (repeat (0%nat, button_one) 13)
              0 button_one initial Hk Hi) as (H1 & _ & _ & H4 & _).
  destruct (H4 Hlen) as [H5 H6].
  split; [exact H1|]. split; [exact H5|exact H6].
Defined.

(** * Further properties *)

(** ** The hit test as a grid lookup *)

Lemma hits_of_index k b px py :
  nth_error phone_button k = Some b -> hit b px py = true ->
  List.map fst (hits px py) = [k].
Proof.
  intros Hn Hh. destruct (hits_of_button k b px py Hn Hh) as [E _].
  rewrite E. reflexivity.
Qed.

Lemma hits_nowhere px py :
  Forall (fun c => hit c px py = false) phone_button ->
  List.map fst (hits px py) = [].
Proof.
  intros H. unfold hits. rewrite hits_from_none by exact H. reflexivity.
Qed.

Ltac inside_square :=
  eval_hit; apply is_pressed_open; lia.

Ltac grid_leaf :=
  lazymatch goal with
  | |- _ = [?k] =>
      eapply (hits_of_index k); [reflexivity|inside_square]
  | |- _ = [] =>
      apply hits_nowhere; unfold phone_button; misses_all
  end.

(** X1: the buttons matched at a mapped point are given by a grid
    lookup: the point selects button [3 * row + column] when it lies
    strictly inside one of the three column intervals and one of the
    five row intervals, and no button otherwise (gutters, margins, the
    dial line and the banner). *)
Theorem hit_test_is_grid_lookup (px py : Z) :
  List.map fst (hits px py)
  = match grid_cell px py with Some k => [k] | None => [] end.
Proof.
  unfold grid_cell, row_of, column_of.
  repeat match goal with
         | |- context [(?a <? ?b)] =>
             destruct (Z.ltb_spec a b); cbn [andb]; try lia
         end;
  cbn [Nat.mul Nat.add]; grid_leaf.
Qed.

(** ** The calibration *)

Lemma int16_small v : -32768 <= v < 32768 -> int16_t v = v.
Proof.
  intros H. unfold int16_t. rewrite Z.mod_small by lia. lia.
Qed.

Lemma map_inverted v lo hi out :
  lo < hi ->
  map v hi lo 0 out = Z.quot ((hi - v) * out) (hi - lo).
Proof.
  intros H. unfold map.
  replace ((v - hi) * (out - 0)) with (- ((hi - v) * out)) by ring.
  replace (lo - hi) with (- (hi - lo)) by ring.
  rewrite Z.quot_opp_opp by lia. ring.
Qed.

Lemma scaled_bounds v out range :
  0 < range -> 0 <= out -> -32768 <= v <= 32767 ->
  Z.quot (-32768 * out) range <= Z.quot (v * out) range
  <= Z.quot (32767 * out) range.
Proof.
  intros Hr Ho Hv. split; apply Z.quot_le_mono; nia.
Qed.

Lemma mapped_x_value p :
  -32768 <= x p <= 32767 ->
  mapped_x p = Z.quot ((TS_MINX - x p) * Get_Display_Width) 730.
Proof.
  intros Hx. unfold mapped_x.
  rewrite (map_inverted (x p) TS_MAXX TS_MINX Get_Display_Width)
    by reflexivity.
  change (TS_MINX - TS_MAXX) with 730.
  apply int16_small.
  unfold TS_MINX, Get_Display_Width.
  assert (Z.quot (-31857 * 240) 730 <= Z.quot ((910 - x p) * 240) 730
          <= Z.quot (33678 * 240) 730) as Hb
    by (split; apply Z.quot_le_mono; lia).
  change (Z.quot (-31857 * 240) 730) with (-10473) in Hb.
  change (Z.quot (33678 * 240) 730) with 11072 in Hb.
  lia.
Qed.

Lemma mapped_y_value p :
  -32768 <= y p <= 32767 ->
  mapped_y p = Z.quot ((TS_MINY - y p) * Get_Display_Height) 625.
Proof.
  intros Hy. unfold mapped_y.
  rewrite (map_inverted (y p) TS_MAXY TS_MINY Get_Display_Height)
    by reflexivity.
  change (TS_MINY - TS_MAXY) with 625.
  apply int16_small.
  unfold TS_MINY, Get_Display_Height.
  assert (Z.quot (-32007 * 320) 625 <= Z.quot ((760 - y p) * 320) 625
          <= Z.quot (33528 * 320) 625) as Hb
    by (split; apply Z.quot_le_mono; lia).
  change (Z.quot (-32007 * 320) 625) with (-16387) in Hb.
  change (Z.quot (33528 * 320) 625) with 17166 in Hb.
  lia.
Qed.

(** X2: the calibration inverts both axes and lands on the display: for
    raw readings in the [int16_t] range a larger raw x (or y) never maps
    to a larger display x (or y); a raw x between [TS_MAXX] and
    [TS_MINX] maps into 0..240 and a raw y between [TS_MAXY] and
    [TS_MINY] into 0..320. *)
Theorem calibration_inverts_and_bounds (p q : TSPoint) :
  (-32768 <= x p -> x p <= x q -> x q <= 32767 -> mapped_x q <= mapped_x p)
  /\ (-32768 <= y p -> y p <= y q -> y q <= 32767 ->
      mapped_y q <= mapped_y p)
  /\ (TS_MAXX <= x p <= TS_MINX -> 0 <= mapped_x p <= Get_Display_Width)
  /\ (TS_MAXY <= y p <= TS_MINY -> 0 <= mapped_y p <= Get_Display_Height).
Proof.
  unfold TS_MAXX, TS_MAXY.
  split; [intros H1 H2 H3|split; [intros H1 H2 H3|split; intros H]].
  - rewrite !mapped_x_value by lia.
    apply Z.quot_le_mono; [lia|]. unfold Get_Display_Width. lia.
  - rewrite !mapped_y_value by lia.
    apply Z.quot_le_mono; [lia|]. unfold Get_Display_Height. lia.
  - rewrite mapped_x_value by (unfold TS_MINX in *; lia).
    unfold TS_MINX, Get_Display_Width in *. split.
    + apply Z.quot_pos; lia.
    + change 240 with (Z.quot (730 * 240) 730) at 2.
      apply Z.quot_le_mono; lia.
  - rewrite mapped_y_value by (unfold TS_MINY in *; lia).
    unfold TS_MINY, Get_Display_Height in *. split.
    + apply Z.quot_pos; lia.
    + change 320 with (Z.quot (625 * 320) 625) at 2.
      apply Z.quot_le_mono; lia.
Qed.

Lemma calibration_inverts_and_bounds_witness :
  (-32768 <= x (sample touch_call)
   /\ x (sample touch_call) <= x (sample touch_one)
   /\ x (sample touch_one) <= 32767
   /\ TS_MAXX <= x (sample touch_call) <= TS_MINX)
  /\ (mapped_x (sample touch_one) <= mapped_x (sample touch_call)
      /\ 0 <= mapped_x (sample touch_call) <= Get_Display_Width).
Proof.
  assert (-32768 <= x (sample touch_call)) as H1
    by (apply Z.leb_le; reflexivity).
  assert (x (sample touch_call) <= x (sample touch_one)) as H2
    by (apply Z.leb_le; reflexivity).
  assert (x (sample touch_one) <= 32767) as H3
    by (apply Z.leb_le; reflexivity).
  assert (TS_MAXX <= x (sample touch_call) <= TS_MINX) as H4
    by (split; apply Z.leb_le; reflexivity).
  split; [split; [exact H1|split; [exact H2|split; [exact H3|exact H4]]]|].
  destruct (calibration_inverts_and_bounds (sample touch_call)
              (sample touch_one)) as (Hx & _ & Hb & _).
  split; [exact (Hx H1 H2 H3)|exact (Hb H4)].
Defined.

Lemma raw_x_for_maps px z0 yraw :
  0 <= px <= Get_Display_Width ->
  TS_MAXX <= raw_x_for px <= TS_MINX
  /\ mapped_x (mkTSPoint (raw_x_for px) yraw z0) = px.
Proof.
  unfold Get_Display_Width, TS_MAXX. intros H.
  assert (TS_MAXX <= raw_x_for px <= TS_MINX) as Hr.
  { unfold raw_x_for, TS_MINX, TS_MAXX.
    pose proof (Z.div_le_mono 239 (730 * px + 239) 240).
    pose proof (Z.div_le_mono (730 * px + 239) (730 * 240 + 239) 240).
    change (239 / 240) with 0 in *.
    change ((730 * 240 + 239) / 240) with 730 in *. lia. }
  split; [exact Hr|].
  rewrite mapped_x_value
    by (cbn [x]; unfold TS_MINX, TS_MAXX in Hr; lia).
  cbn [x]. unfold raw_x_for, TS_MINX, Get_Display_Width.
  replace (910 - (910 - (730 * px + 239) / 240))
    with ((730 * px + 239) / 240) by ring.
  assert (0 <= (730 * px + 239) / 240) by (apply Z.div_pos; lia).
  rewrite Z.quot_div_nonneg by lia.
  symmetry. apply Z.div_unique with ((730 * px + 239) / 240 * 240 - 730 * px).
  - pose proof (Z.div_mod (730 * px + 239) 240).
    pose proof (Z.mod_pos_bound (730 * px + 239) 240). lia.
  - ring.
Qed.

Lemma raw_y_for_maps py z0 xraw :
  0 <= py <= Get_Display_Height ->
  TS_MAXY <= raw_y_for py <= TS_MINY
  /\ mapped_y (mkTSPoint xraw (raw_y_for py) z0) = py.
Proof.
  unfold Get_Display_Height, TS_MAXY. intros H.
  assert (TS_MAXY <= raw_y_for py <= TS_MINY) as Hr.
  { unfold raw_y_for, TS_MINY, TS_MAXY.
    pose proof (Z.div_le_mono 319 (625 * py + 319) 320).
    pose proof (Z.div_le_mono (625 * py + 319) (625 * 320 + 319) 320).
    change (319 / 320) with 0 in *.
    change ((625 * 320 + 319) / 320) with 625 in *. lia. }
  split; [exact Hr|].
  rewrite mapped_y_value
    by (cbn [y]; unfold TS_MINY, TS_MAXY in Hr; lia).
  cbn [y]. unfold raw_y_for, TS_MINY, Get_Display_Height.
  replace (760 - (760 - (625 * py + 319) / 320))
    with ((625 * py + 319) / 320) by ring.
  assert (0 <= (625 * py + 319) / 320) by (apply Z.div_pos; lia).
  rewrite Z.quot_div_nonneg by lia.
  symmetry. apply Z.div_unique with ((625 * py + 319) / 320 * 320 - 625 * py).
  - pose proof (Z.div_mod (625 * py + 319) 320).
    pose proof (Z.mod_pos_bound (625 * py + 319) 320). lia.
  - ring.
Qed.

(** X3: the calibrated range covers the display: every display
    coordinate pair (px, py) with 0 <= px <= 240 and 0 <= py <= 320 is
    the mapped position of a touch whose raw x lies between [TS_MAXX]
    and [TS_MINX] and whose raw y lies between [TS_MAXY] and
    [TS_MINY]. *)
Theorem calibration_covers_display (px py pressure : Z) :
  0 <= px <= Get_Display_Width -> 0 <= py <= Get_Display_Height ->
  exists p,
    z p = pressure
    /\ TS_MAXX <= x p <= TS_MINX /\ TS_MAXY <= y p <= TS_MINY
    /\ mapped_x p = px /\ mapped_y p = py.
Proof.
  intros Hx Hy.
  exists (mkTSPoint (raw_x_for px) (raw_y_for py) pressure).
  destruct (raw_x_for_maps px pressure (raw_y_for py) Hx) as [Hrx Hmx].
  destruct (raw_y_for_maps py pressure (raw_x_for px) Hy) as [Hry Hmy].
  cbn [x y z]. repeat split; try tauto; assumption.
Qed.

Lemma calibration_covers_display_witness :
  (0 <= 119 <= Get_Display_Width /\ 0 <= 289 <= Get_Display_Height)
  /\ exists p,
       z p = 500
       /\ TS_MAXX <= x p <= TS_MINX /\ TS_MAXY <= y p <= TS_MINY
       /\ mapped_x p = 119 /\ mapped_y p = 289.
Proof.
  assert (0 <= 119 <= Get_Display_Width) as Hx
    by (split; apply Z.leb_le; reflexivity).
  assert (0 <= 289 <= Get_Display_Height) as Hy
    by (split; apply Z.leb_le; reflexivity).
  split; [split; [exact Hx|exact Hy]|].
  exact (calibration_covers_display 119 289 500 Hx Hy).
Defined.

(** ** The shape of one pass *)

Lemma first_hit_sound px py i b :
  first_hit px py = Some (i, b) ->
  nth_error phone_button i = Some b /\ hit b px py = true
  /\ hits px py = [(i, b)].
Proof.
  intros E. pose proof (grid_disjoint px py) as Hg. rewrite E in Hg.
  assert (In (i, b) (hits px py)) as Hin by (rewrite Hg; left; reflexivity).
  apply hits_from_sound in Hin. destruct Hin as (Hh & _ & Hn).
  rewrite Nat.sub_0_r in Hn. auto.
Qed.

Lemma first_hit_none px py : first_hit px py = None -> hits px py = [].
Proof.
  intros E. pose proof (grid_disjoint px py) as Hg. rewrite E in Hg.
  exact Hg.
Qed.

Lemma loop_shape inp g :
  loop inp g
  = if qualifies (sample inp)
    then match first_hit (mapped_x (sample inp)) (mapped_y (sample inp)) with
         | Some (i, b) =>
             (tt, state_of (dispatch inp i b g),
              sampling (sample inp) ++ flashed b
              ++ trace_of (dispatch inp i b g))
         | None => (tt, g, sampling (sample inp))
         end
    else (tt, g, sampling (sample inp)).
Proof.
  destruct (qualifies (sample inp)) eqn:Hq.
  - destruct (first_hit (mapped_x (sample inp)) (mapped_y (sample inp)))
      as [[i b]|] eqn:E.
    + destruct (first_hit_sound _ _ _ _ E) as (Hn & Hh & _).
      apply loop_on_button; assumption.
    + rewrite loop_qualified, (first_hit_none _ _ E) by assumption.
      cbn [presses]. unfold ret. rewrite state_of_mk, trace_of_mk, app_nil_r.
      reflexivity.
  - apply loop_over_ignored. exact Hq.
Qed.

Lemma table_centres :
  Forall (fun b => 0 <= button_x b <= Get_Display_Width
                   /\ 0 <= button_y b <= Get_Display_Height)
         phone_button.
Proof.
  repeat (apply Forall_cons;
          [split; split; apply Z.leb_le; reflexivity|]).
  apply Forall_nil.
Qed.

(** X4: the keypad has no dead key: for every button of the table there
    is a touch of qualifying pressure, with raw coordinates inside the
    calibrated range, on which the loop pass runs the body for that
    button and for no other. *)
Theorem every_button_can_be_pressed
    (i : nat) (b : button_info) (inp0 : input) (g : globals) :
  nth_error phone_button i = Some b ->
  exists p,
    qualifies p = true
    /\ TS_MAXX <= x p <= TS_MINX /\ TS_MAXY <= y p <= TS_MINY
    /\ hits (mapped_x p) (mapped_y p) = [(i, b)]
    /\ loop (mkInput p (after_dial inp0) (after_hangup inp0)) g
       = (tt,
          state_of (dispatch
                      (mkInput p (after_dial inp0) (after_hangup inp0)) i b g),
          sampling p ++ flashed b
          ++ trace_of (dispatch
                         (mkInput p (after_dial inp0) (after_hangup inp0))
                         i b g)).
Proof.
  intros Hn. pose proof (nth_error_In _ _ Hn) as Hb.
  destruct (proj1 (Forall_forall _ _) table_centres b Hb) as [Hx Hy].
  exists (mkTSPoint (raw_x_for (button_x b)) (raw_y_for (button_y b)) 500).
  destruct (raw_x_for_maps (button_x b) 500 (raw_y_for (button_y b)) Hx)
    as [Hrx Hmx].
  destruct (raw_y_for_maps (button_y b) 500 (raw_x_for (button_x b)) Hy)
    as [Hry Hmy].
  assert (hit b (button_x b) (button_y b) = true) as Hh
    by (apply hit_inside; [exact Hb|unfold BUTTON_R; lia]).
  split; [reflexivity|]. split; [exact Hrx|]. split; [exact Hry|].
  rewrite Hmx, Hmy. split.
  - apply hits_of_button; assumption.
  - apply loop_on_button; cbn [sample]; [reflexivity|exact Hn|].
    rewrite Hmx, Hmy. exact Hh.
Qed.

Lemma every_button_can_be_pressed_witness :
  nth_error phone_button 14 = Some button_dele
  /\ exists p,
       qualifies p = true
       /\ TS_MAXX <= x p <= TS_MINX /\ TS_MAXY <= y p <= TS_MINY
       /\ hits (mapped_x p) (mapped_y p) = [(14%nat, button_dele)]
       /\ loop (mkInput p (after_dial touch_one) (after_hangup touch_one))
            initial
          = (tt,
             state_of (dispatch
                         (mkInput p (after_dial touch_one)
                            (after_hangup touch_one)) 14 button_dele initial),
             sampling p ++ flashed button_dele
             ++ trace_of (dispatch
                            (mkInput p (after_dial touch_one)
                               (after_hangup touch_one))
                            14 button_dele initial)).
Proof.
  split; [reflexivity|].
  exact (every_button_can_be_pressed 14 button_dele touch_one initial
           eq_refl).
Defined.

(** X5: one loop pass types or removes at most one character: after any
    run from start-up, a further pass changes [n] by -1, 0 or +1, and
    moves [text_x] by 17 times that change. *)
Theorem one_character_per_pass (inps : list input) (inp : input) :
  -1 <= n (state_of (loop inp (state_of (run inps initial))))
        - n (state_of (run inps initial)) <= 1
  /\ text_x (state_of (loop inp (state_of (run inps initial))))
     - text_x (state_of (run inps initial))
     = 17 * (n (state_of (loop inp (state_of (run inps initial))))
             - n (state_of (run inps initial))).
Proof.
  pose proof (run_invariant inps initial initial_invariant) as Hg.
  pose proof (loop_invariant inp _ Hg) as Hg'.
  split.
  - rewrite loop_shape.
    destruct (qualifies (sample inp)); [|rewrite state_of_mk; lia].
    destruct (first_hit _ _) as [[i b]|]; rewrite state_of_mk; [|lia].
    rewrite dispatch_state by exact Hg. rewrite Z.gtb_ltb.
    destruct (i <? 12)%nat; [|destruct (i =? 14)%nat].
    + destruct (Z.ltb_spec (n (state_of (run inps initial))) 13);
        cbn [n]; lia.
    + destruct (Z.ltb_spec 0 (n (state_of (run inps initial))));
        cbn [n]; lia.
    + lia.
  - destruct Hg as [_ Hx]. destruct Hg' as [_ Hx'].
    rewrite text_x_add_value in *. lia.
Qed.

(** ** Silence on the modem link *)

Lemma dispatch_silent inp i b g :
  i <> 13%nat -> filter on_modem_link (trace_of (dispatch inp i b g)) = [].
Proof.
  intros Hi. destruct (Nat.lt_ge_cases i 12) as [Hlt|Hge].
  - destruct (Z.lt_ge_cases (n g) 13).
    + rewrite dispatch_digit_append by assumption. reflexivity.
    + rewrite dispatch_digit_full by assumption. reflexivity.
  - assert (i = 12 \/ i = 14 \/ 14 < i)%nat as Hcase by lia.
    destruct Hcase as [->|[->|Hbig]].
    + reflexivity.
    + destruct (Z.lt_ge_cases 0 (n g)).
      * rewrite dispatch_delete_nonempty by assumption. reflexivity.
      * rewrite dispatch_delete_empty by assumption. reflexivity.
    + rewrite dispatch_beyond by assumption. reflexivity.
Qed.

(** X6: the modem link is touched only by a press of "call": a loop pass
    whose sample does not qualify, or whose mapped point is not strictly
    inside the square of the "call" button, neither prints a command nor
    relays a byte to the modem, whatever is waiting on the console. *)
Theorem modem_untouched_unless_call (inp : input) (g : globals) :
  qualifies (sample inp) = false
  \/ hit button_call (mapped_x (sample inp)) (mapped_y (sample inp)) = false ->
  filter on_modem_link (trace_of (loop inp g)) = [].
Proof.
  intros H. rewrite loop_shape.
  destruct (qualifies (sample inp)) eqn:Hq; [|reflexivity].
  destruct H as [H|H]; [discriminate|].
  destruct (first_hit _ _) as [[i b]|] eqn:E; [|reflexivity].
  destruct (first_hit_sound _ _ _ _ E) as (Hn & Hh & _).
  rewrite trace_of_mk, !filter_app.
  assert (i <> 13%nat) as Hi.
  { intros ->.
    change (nth_error phone_button 13) with (Some button_call) in Hn.
    inversion Hn; subst b. rewrite H in Hh. discriminate. }
  rewrite (dispatch_silent inp i b g Hi). reflexivity.
Qed.

Lemma modem_untouched_unless_call_witness :
  (qualifies (sample touch_one) = false
   \/ hit button_call (mapped_x (sample touch_one))
        (mapped_y (sample touch_one)) = false)
  /\ filter on_modem_link (trace_of (loop touch_one initial)) = [].
Proof.
  assert (qualifies (sample touch_one) = false
          \/ hit button_call (mapped_x (sample touch_one))
               (mapped_y (sample touch_one)) = false) as H
    by (right; reflexivity).
  split; [exact H|].
  exact (modem_untouched_unless_call touch_one initial H).
Defined.

(** ** Typing and erasing *)

Lemma dispatch_digit_trace inp i b g :
  (i < 12)%nat -> cursor_tracks_count g -> n g < 13 ->
  dispatch inp i b g
  = (tt, mkGlobals (text_x g + 17) (n g + 1),
     shown (button_name b) (text_x g) text_y (button_name_size b)
       GREENYELLOW BLACK true).
Proof.
  intros Hi [Hn Hx] Hc. rewrite text_x_add_value in Hx.
  rewrite dispatch_digit_append by assumption.
  rewrite text_x_add_value, !wrap_small by lia. reflexivity.
Qed.

Lemma dispatch_delete_trace inp b g :
  cursor_tracks_count g -> 0 < n g ->
  dispatch inp 14 b g
  = (tt, mkGlobals (text_x g - 17) (n g - 1),
     [ Set_Draw_color BLUE;
       Fill_Rectangle (text_x g - 17) text_y
         (text_x g - 17 + text_x_add - 1) (text_y + text_y_add - 2) ]).
Proof.
  intros [Hn Hx] Hc. rewrite text_x_add_value in Hx.
  rewrite dispatch_delete_nonempty by assumption.
  rewrite text_x_add_value, text_y_add_value.
  change (18 - 1) with 17.
  rewrite !wrap_small by lia.
  rewrite !int16_small by (unfold text_y; lia). reflexivity.
Qed.

(** X7: delete undoes the last keystroke exactly.  After any run from
    start-up with room left in the dial line, a digit press prints its
    label at the cursor, and a delete press straight after it paints
    the BLUE rectangle whose corner is that same position, 18 pixels
    wide and 23 high, and returns [text_x] and [n] to what they were
    before the digit. *)
Theorem delete_undoes_keystroke
    (inps : list input) (inp : input)
    (i : nat) (b dele : button_info) :
  (i < 12)%nat -> n (state_of (run inps initial)) < 13 ->
  press inp (i, b) (state_of (run inps initial))
  = (tt,
     mkGlobals (text_x (state_of (run inps initial)) + 17)
               (n (state_of (run inps initial)) + 1),
     flashed b
     ++ shown (button_name b) (text_x (state_of (run inps initial))) text_y
          (button_name_size b) GREENYELLOW BLACK true)
  /\ press inp (14%nat, dele)
       (state_of (press inp (i, b) (state_of (run inps initial))))
     = (tt, state_of (run inps initial),
        flashed dele
        ++ [ Set_Draw_color BLUE;
             Fill_Rectangle (text_x (state_of (run inps initial))) 6
               (text_x (state_of (run inps initial)) + 17) 28 ]).
Proof.
  intros Hi Hc.
  pose proof (run_invariant inps initial initial_invariant) as Hg.
  remember (state_of (run inps initial)) as g eqn:Eg. clear Eg.
  assert (press inp (i, b) g
          = (tt, mkGlobals (text_x g + 17) (n g + 1),
             flashed b
             ++ shown (button_name b) (text_x g) text_y (button_name_size b)
                  GREENYELLOW BLACK true)) as E.
  { rewrite press_run, dispatch_digit_trace by assumption. reflexivity. }
  split; [exact E|].
  rewrite E, state_of_mk.
  assert (cursor_tracks_count (mkGlobals (text_x g + 17) (n g + 1))) as Hg1.
  { destruct Hg as [Hn Hx]. unfold cursor_tracks_count.
    rewrite text_x_add_value in *. cbn [n text_x]. lia. }
  rewrite press_run, dispatch_delete_trace
    by (try exact Hg1; destruct Hg as [Hn _]; cbn [n]; lia).
  rewrite state_of_mk, trace_of_mk. cbn [n text_x].
  rewrite text_x_add_value, text_y_add_value. unfold text_y.
  replace (text_x g + 17 - 17) with (text_x g) by ring.
  replace (n g + 1 - 1) with (n g) by ring.
  replace (text_x g + 18 - 1) with (text_x g + 17) by ring.
  rewrite <- globals_eta. reflexivity.
Qed.

Lemma delete_undoes_keystroke_witness :
  ((0 < 12)%nat /\ n (state_of (run [touch_one] initial)) < 13)
  /\ (press touch_one (0%nat, button_one) (state_of (run [touch_one] initial))
      = (tt,
         mkGlobals (text_x (state_of (run [touch_one] initial)) + 17)
                   (n (state_of (run [touch_one] initial)) + 1),
         flashed button_one
         ++ shown (button_name button_one)
              (text_x (state_of (run [touch_one] initial))) text_y
              (button_name_size button_one) GREENYELLOW BLACK true)
      /\ press touch_one (14%nat, button_dele)
           (state_of (press touch_one (0%nat, button_one)
                        (state_of (run [touch_one] initial))))
         = (tt, state_of (run [touch_one] initial),
            flashed button_dele
            ++ [ Set_Draw_color BLUE;
                 Fill_Rectangle
                   (text_x (state_of (run [touch_one] initial))) 6
                   (text_x (state_of (run [touch_one] initial)) + 17) 28 ])).
Proof.
  assert (0 < 12)%nat as Hi by (apply Nat.ltb_lt; reflexivity).
  assert (n (state_of (run [touch_one] initial)) < 13) as Hc
    by reflexivity.
  split; [split; [exact Hi|exact Hc]|].
  exact (delete_undoes_keystroke [touch_one] touch_one 0
           button_one button_dele Hi Hc).
Defined.

(** X8: there is no debouncing: the same qualifying sample on a digit,
    [#] or [*] button, seen on two successive passes, types the
    character twice (as far as the 13 places allow), the cursor moving
    17 pixels for each. *)
Theorem held_touch_repeats
    (inps : list input) (inp : input) (i : nat) (b : button_info) :
  qualifies (sample inp) = true ->
  nth_error phone_button i = Some b -> (i < 12)%nat ->
  hit b (mapped_x (sample inp)) (mapped_y (sample inp)) = true ->
  n (state_of (run [inp; inp] (state_of (run inps initial))))
  = Z.min (n (state_of (run inps initial)) + 2) 13
  /\ text_x (state_of (run [inp; inp] (state_of (run inps initial))))
     = 10 + 17 * Z.min (n (state_of (run inps initial)) + 2) 13.
Proof.
  intros Hq Hn Hi Hh.
  pose proof (run_invariant inps initial initial_invariant) as Hg.
  remember (state_of (run inps initial)) as g eqn:Eg. clear Eg.
  pose proof (loop_invariant inp g Hg) as Hg1.
  pose proof (loop_invariant inp _ Hg1) as Hg2.
  assert (forall h, cursor_tracks_count h ->
                    n (state_of (loop inp h)) = Z.min (n h + 1) 13) as Hstep.
  { intros h Hh'. rewrite (loop_on_button inp h i b Hq Hn Hh), state_of_mk.
    rewrite <- press_state. apply digit_press_count; assumption. }
  rewrite !run_cons, !state_of_mk. cbn [run]. unfold ret.
  rewrite state_of_mk.
  assert (n (state_of (loop inp (state_of (loop inp g))))
          = Z.min (n g + 2) 13) as En.
  { rewrite Hstep by exact Hg1. rewrite Hstep by exact Hg.
    destruct Hg as [Hr _]. lia. }
  split; [exact En|].
  destruct Hg2 as [_ Hx]. rewrite text_x_add_value in Hx. lia.
Qed.

Lemma held_touch_repeats_witness :
  (qualifies (sample touch_one) = true
   /\ nth_error phone_button 0 = Some button_one /\ (0 < 12)%nat
   /\ hit button_one (mapped_x (sample touch_one))
        (mapped_y (sample touch_one)) = true)
  /\ (n (state_of (run [touch_one; touch_one] (state_of (run [] initial))))
      = Z.min (n (state_of (run [] initial)) + 2) 13
      /\ text_x (state_of (run [touch_one; touch_one]
                             (state_of (run [] initial))))
         = 10 + 17 * Z.min (n (state_of (run [] initial)) + 2) 13).
Proof.
  assert (0 < 12)%nat as Hi by (apply Nat.ltb_lt; reflexivity).
  split; [split; [reflexivity|split; [reflexivity|split;
                                       [exact Hi|reflexivity]]]|].
  exact (held_touch_repeats [] touch_one 0 button_one
           eq_refl eq_refl Hi eq_refl).
Defined.

(** ** Time spent waiting *)

Lemma total_delay_app t1 t2 :
  total_delay (t1 ++ t2) = total_delay t1 + total_delay t2.
Proof.
  induction t1 as [|e t1 IH]; [reflexivity|].
  cbn [app]. unfold total_delay in *. cbn [fold_right].
  destruct e; rewrite IH; ring.
Qed.

Lemma total_delay_relayed p : total_delay (relayed p) = 500.
Proof.
  unfold relayed.
  change (total_delay
            (delay 500 :: List.map mySerial_write (from_console p)
                          ++ List.map Serial_write (from_modem p)))
    with (500 + total_delay (List.map mySerial_write (from_console p)
                             ++ List.map Serial_write (from_modem p))).
  rewrite total_delay_app.
  assert (forall l, total_delay (List.map mySerial_write l) = 0) as E1
    by (induction l; [reflexivity|assumption]).
  assert (forall l, total_delay (List.map Serial_write l) = 0) as E2
    by (induction l; [reflexivity|assumption]).
  rewrite E1, E2. reflexivity.
Qed.

Lemma dispatch_delay inp i b g :
  total_delay (trace_of (dispatch inp i b g))
  = if (i =? 13)%nat then 21000 else 0.
Proof.
  destruct (Nat.lt_ge_cases i 12) as [Hi|Hi].
  - replace (i =? 13)%nat with false by (symmetry; apply Nat.eqb_neq; lia).
    destruct (Z.lt_ge_cases (n g) 13).
    + rewrite dispatch_digit_append by assumption. reflexivity.
    + rewrite dispatch_digit_full by assumption. reflexivity.
  - assert (i = 12 \/ i = 13 \/ i = 14 \/ 14 < i)%nat as Hcase by lia.
    destruct Hcase as [->|[->|[->|Hbig]]].
    + reflexivity.
    + rewrite dispatch_call, trace_of_mk.
      rewrite !total_delay_app, !total_delay_relayed. reflexivity.
    + destruct (Z.lt_ge_cases 0 (n g)).
      * rewrite dispatch_delete_nonempty by assumption. reflexivity.
      * rewrite dispatch_delete_empty by assumption. reflexivity.
    + rewrite dispatch_beyond by assumption.
      replace (i =? 13)%nat with false by (symmetry; apply Nat.eqb_neq; lia).
      reflexivity.
Qed.

(** X9: how long a loop pass waits in [delay]: nothing when the sample
    is rejected or misses every button, 100 ms (the flash) when it
    matches any button but "call", and 21100 ms (flash, two relay
    settles of 500 ms and the 20000 ms hold) when it matches "call";
    this holds whatever the globals and the pending serial bytes. *)
Theorem pass_waits (inp : input) (g : globals) :
  total_delay (trace_of (loop inp g))
  = if qualifies (sample inp)
    then match first_hit (mapped_x (sample inp)) (mapped_y (sample inp)) with
         | Some (i, _) => if (i =? 13)%nat then 21100 else 100
         | None => 0
         end
    else 0.
Proof.
  rewrite loop_shape.
  destruct (qualifies (sample inp)); [|reflexivity].
  destruct (first_hit _ _) as [[i b]|]; [|reflexivity].
  rewrite trace_of_mk, !total_delay_app, dispatch_delay.
  change (total_delay (sampling (sample inp))) with 0.
  change (total_delay (flashed b)) with 100.
  destruct (i =? 13)%nat; reflexivity.
Qed.

(** ** Staying on the display *)

Lemma on_screen_app s t1 t2 :
  on_screen s t1 = true -> (forall s', on_screen s' t2 = true) ->
  on_screen s (t1 ++ t2) = true.
Proof.
  intros H1 H2. revert s H1.
  induction t1 as [|e t1 IH]; intros s H1; [apply H2|].
  destruct e; cbn [app on_screen] in *;
    try (apply IH; exact H1);
    apply andb_true_iff in H1; destruct H1 as [Ha Hb];
    apply andb_true_iff; (split; [exact Ha|apply IH; exact Hb]).
Qed.

Lemma on_screen_relayed p s : on_screen s (relayed p) = true.
Proof.
  unfold relayed. cbn [on_screen].
  induction (from_console p) as [|c l IH]; [|exact IH].
  cbn [List.map app].
  induction (from_modem p) as [|c l IH]; [reflexivity|exact IH].
Qed.

Lemma flashed_on_screen :
  Forall (fun b => forall s, on_screen s (flashed b) = true) phone_button.
Proof.
  repeat (apply Forall_cons; [intros s; vm_compute; reflexivity|]).
  apply Forall_nil.
Qed.

Lemma digit_buttons i b :
  nth_error phone_button i = Some b -> (i < 12)%nat ->
  strlen (button_name b) = 1 /\ button_name_size b = 3.
Proof.
  intros Hn Hi.
  do 12 (destruct i as [|i];
         [inversion Hn; subst b; split; reflexivity|]).
  lia.
Qed.

Lemma dispatch_on_screen inp i b g s :
  nth_error phone_button i = Some b -> cursor_tracks_count g ->
  on_screen s (trace_of (dispatch inp i b g)) = true.
Proof.
  intros Hn Hg. pose proof Hg as [Hr Hx]. rewrite text_x_add_value in Hx.
  destruct (Nat.lt_ge_cases i 12) as [Hi|Hi].
  - destruct (Z.lt_ge_cases (n g) 13) as [Hc|Hc].
    + rewrite dispatch_digit_trace, trace_of_mk by assumption.
      destruct (digit_buttons i b Hn Hi) as [Hl Hs].
      unfold shown. cbn [on_screen]. unfold text_box_fits.
      rewrite Hl, Hs, andb_true_r, !int16_small by (unfold text_y; lia).
      replace (text_x g =? CENTER) with false
        by (symmetry; apply Z.eqb_neq; unfold CENTER; lia).
      unfold Get_Display_Width, Get_Display_Height, text_y.
      rewrite !andb_true_iff, !Z.leb_le. lia.
    + rewrite dispatch_digit_full by assumption. reflexivity.
  - assert (i = 12 \/ i = 13 \/ i = 14 \/ 14 < i)%nat as Hcase by lia.
    destruct Hcase as [->|[->|[->|Hbig]]].
    + reflexivity.
    + rewrite dispatch_call, trace_of_mk.
      apply on_screen_app; [reflexivity|]. intros s1.
      apply on_screen_app; [reflexivity|]. intros s2.
      apply on_screen_app; [apply on_screen_relayed|]. intros s3.
      apply on_screen_app; [reflexivity|]. intros s4.
      apply on_screen_relayed.
    + destruct (Z.lt_ge_cases 0 (n g)) as [Hc|Hc].
      * rewrite dispatch_delete_trace, trace_of_mk by assumption.
        cbn [on_screen]. unfold rect_fits.
        rewrite text_x_add_value, text_y_add_value, andb_true_r.
        unfold Get_Display_Width, Get_Display_Height, text_y.
        rewrite !andb_true_iff, !Z.leb_le, !Z.ltb_lt. lia.
      * rewrite dispatch_delete_empty by assumption. reflexivity.
    + rewrite dispatch_beyond by assumption. reflexivity.
Qed.

Lemma hits_from_table px py : Forall from_table (hits px py).
Proof.
  apply Forall_forall. intros [i b] Hin.
  apply hits_from_sound in Hin. destruct Hin as (_ & _ & Hn).
  rewrite Nat.sub_0_r in Hn. exact Hn.
Qed.

Lemma presses_on_screen inp l g :
  Forall from_table l -> cursor_tracks_count g ->
  forall s, on_screen s (trace_of (presses inp l g)) = true.
Proof.
  intros Hl. revert g. induction Hl as [|[i b] rest Hib _ IH]; intros g Hg s.
  - reflexivity.
  - rewrite presses_cons, trace_of_mk.
    apply on_screen_app.
    + rewrite press_run, trace_of_mk. apply on_screen_app.
      * apply (proj1 (Forall_forall _ _) flashed_on_screen b).
        eapply nth_error_In. exact Hib.
      * intros s'. apply dispatch_on_screen; assumption.
    + apply IH, press_invariant, Hg.
Qed.

Lemma loop_on_screen inp g :
  cursor_tracks_count g ->
  forall s, on_screen s (trace_of (loop inp g)) = true.
Proof.
  intros Hg s. destruct (qualifies (sample inp)) eqn:Hq.
  - rewrite loop_qualified, trace_of_mk by assumption.
    apply on_screen_app; [reflexivity|].
    apply presses_on_screen; [apply hits_from_table|exact Hg].
  - unfold loop. rewrite loop_over_ignored, trace_of_mk by assumption.
    reflexivity.
Qed.

Lemma run_on_screen inps g :
  cursor_tracks_count g ->
  forall s, on_screen s (trace_of (run inps g)) = true.
Proof.
  revert g. induction inps as [|inp rest IH]; intros g Hg s; [reflexivity|].
  rewrite run_cons, trace_of_mk.
  apply on_screen_app; [apply loop_on_screen; exact Hg|].
  apply IH, loop_invariant, Hg.
Qed.

Lemma show_menu_run g :
  show_menu g = (tt, g, trace_of (show_menu initial)).
Proof. reflexivity. Qed.

(** X10: nothing is ever drawn off the 240 x 320 display: every disc,
    every rectangle and every text box (6 x 8 pixels per character and
    unit of text size) painted by [show_menu], and by any run of the
    loop from start-up, lies within the display; [show_menu] itself
    leaves the globals alone. *)
Theorem drawing_stays_on_screen
    (inps : list input) (g : globals) (csize : Z) :
  on_screen csize (trace_of (show_menu g)) = true
  /\ state_of (show_menu g) = g
  /\ on_screen csize (trace_of (run inps initial)) = true.
Proof.
  split; [|split].
  - rewrite show_menu_run, trace_of_mk. vm_compute. reflexivity.
  - rewrite show_menu_run. reflexivity.
  - apply run_on_screen, initial_invariant.
Qed.

(** ** Leaving the menu intact *)

Lemma rectangles_app t1 t2 :
  rectangles (t1 ++ t2) = rectangles t1 ++ rectangles t2.
Proof. apply flat_map_app. Qed.

Lemma rectangles_relayed p : rectangles (relayed p) = [].
Proof.
  unfold relayed. cbn [rectangles flat_map app].
  fold (rectangles (List.map mySerial_write (from_console p)
                    ++ List.map Serial_write (from_modem p))).
  rewrite rectangles_app.
  assert (forall l, rectangles (List.map mySerial_write l) = []) as E1
    by (induction l; [reflexivity|assumption]).
  assert (forall l, rectangles (List.map Serial_write l) = []) as E2
    by (induction l; [reflexivity|assumption]).
  rewrite E1, E2. reflexivity.
Qed.

Lemma menu_regions_value :
  menu_regions
  = [ (19, 44, 69, 94); (94, 44, 144, 94); (169, 44, 219, 94);
      (19, 99, 69, 149); (94, 99, 144, 149); (169, 99, 219, 149);
      (19, 154, 69, 204); (94, 154, 144, 204); (169, 154, 219, 204);
      (19, 209, 69, 259); (94, 209, 144, 259); (169, 209, 219, 259);
      (19, 264, 69, 314); (94, 264, 144, 314); (169, 264, 219, 314);
      (1, 1, 238, 3); (1, 29, 238, 31); (1, 1, 3, 31); (236, 1, 238, 31) ].
Proof. vm_compute. reflexivity. Qed.

Lemma dispatch_spares_menu inp i b g :
  cursor_tracks_count g ->
  forallb spares_menu (rectangles (trace_of (dispatch inp i b g))) = true.
Proof.
  intros Hg. pose proof Hg as [Hr Hx]. rewrite text_x_add_value in Hx.
  destruct (Nat.lt_ge_cases i 12) as [Hi|Hi].
  - destruct (Z.lt_ge_cases (n g) 13) as [Hc|Hc].
    + rewrite dispatch_digit_append by assumption. reflexivity.
    + rewrite dispatch_digit_full by assumption. reflexivity.
  - assert (i = 12 \/ i = 13 \/ i = 14 \/ 14 < i)%nat as Hcase by lia.
    destruct Hcase as [->|[->|[->|Hbig]]].
    + vm_compute. reflexivity.
    + rewrite dispatch_call, trace_of_mk.
      rewrite !rectangles_app, !rectangles_relayed. vm_compute. reflexivity.
    + destruct (Z.lt_ge_cases 0 (n g)) as [Hc|Hc].
      * rewrite dispatch_delete_trace, trace_of_mk by assumption.
        cbn [rectangles flat_map app forallb]. rewrite andb_true_r.
        unfold spares_menu. rewrite menu_regions_value.
        rewrite text_x_add_value, text_y_add_value. unfold text_y.
        cbn [forallb apart].
        rewrite !andb_true_iff, !orb_true_iff, !Z.ltb_lt. lia.
      * rewrite dispatch_delete_empty by assumption. reflexivity.
    + rewrite dispatch_beyond by assumption. reflexivity.
Qed.

Lemma presses_spare_menu inp l g :
  cursor_tracks_count g ->
  forallb spares_menu (rectangles (trace_of (presses inp l g))) = true.
Proof.
  revert g. induction l as [|[i b] rest IH]; intros g Hg; [reflexivity|].
  rewrite presses_cons, trace_of_mk, rectangles_app, forallb_app.
  apply andb_true_iff. split.
  - rewrite press_run, trace_of_mk, rectangles_app, forallb_app.
    apply andb_true_iff. split; [reflexivity|].
    apply dispatch_spares_menu, Hg.
  - apply IH, press_invariant, Hg.
Qed.

Lemma loop_spares_menu inp g :
  cursor_tracks_count g ->
  forallb spares_menu (rectangles (trace_of (loop inp g))) = true.
Proof.
  intros Hg. destruct (qualifies (sample inp)) eqn:Hq.
  - rewrite loop_qualified, trace_of_mk, rectangles_app, forallb_app
      by assumption.
    apply andb_true_iff. split; [reflexivity|].
    apply presses_spare_menu, Hg.
  - unfold loop. rewrite loop_over_ignored, trace_of_mk by assumption.
    reflexivity.
Qed.

(** X11: the loop never paints a rectangle over the menu: over any run
    from start-up, every rectangle filled (the banner clearing and the
    erasing done by delete) is disjoint from the bounding square of
    every button disc and from the four bars of the frame that
    [show_menu] painted. *)
Theorem rectangles_spare_menu (inps : list input) :
  forallb spares_menu (rectangles (trace_of (run inps initial))) = true.
Proof.
  generalize initial_invariant. generalize initial.
  induction inps as [|inp rest IH]; intros g Hg; [reflexivity|].
  rewrite run_cons, trace_of_mk, rectangles_app, forallb_app.
  apply andb_true_iff. split.
  - apply loop_spares_menu, Hg.
  - apply IH, loop_invariant, Hg.
Qed.

(** X12: every label fits its button: for each button of the table, the
    text box that [show_menu] and the press flash print at
    ([label_x], [label_y]), 6 x 8 pixels per character and unit of text
    size, lies inside the button's bounding square. *)
Theorem labels_fit_buttons (i : nat) (b : button_info) :
  nth_error phone_button i = Some b ->
  button_x b - BUTTON_R < label_x b
  /\ label_x b + strlen (button_name b) * 6 * button_name_size b
     <= button_x b + BUTTON_R
  /\ button_y b - BUTTON_R < label_y b
  /\ label_y b + 8 * button_name_size b <= button_y b + BUTTON_R.
Proof.
  intros Hn. apply nth_error_In in Hn.
  assert (Forall (fun c => label_inside c = true) phone_button) as Hall.
  { repeat (apply Forall_cons; [vm_compute; reflexivity|]).
    apply Forall_nil. }
  pose proof (proj1 (Forall_forall _ _) Hall b Hn) as H.
  unfold label_inside in H.
  rewrite !andb_true_iff, !Z.ltb_lt, !Z.leb_le in H. tauto.
Qed.

Lemma labels_fit_buttons_witness :
  nth_error phone_button 13 = Some button_call
  /\ (button_x button_call - BUTTON_R < label_x button_call
      /\ label_x button_call
         + strlen (button_name button_call) * 6 * button_name_size button_call
         <= button_x button_call + BUTTON_R
      /\ button_y button_call - BUTTON_R < label_y button_call
      /\ label_y button_call + 8 * button_name_size button_call
         <= button_y button_call + BUTTON_R).
Proof.
  split; [reflexivity|].
  exact (labels_fit_buttons 13 button_call eq_refl).
Defined.

(** ** The relay *)

Lemma bytes_to_modem_app t1 t2 :
  bytes_to_modem (t1 ++ t2) = bytes_to_modem t1 ++ bytes_to_modem t2.
Proof. apply flat_map_app. Qed.

Lemma bytes_to_console_app t1 t2 :
  bytes_to_console (t1 ++ t2) = bytes_to_console t1 ++ bytes_to_console t2.
Proof. apply flat_map_app. Qed.

Lemma relayed_split p :
  relayed p
  = [delay 500] ++ List.map mySerial_write (from_console p)
    ++ List.map Serial_write (from_modem p).
Proof. reflexivity. Qed.

Lemma bytes_of_writes l :
  bytes_to_modem (List.map mySerial_write l) = l
  /\ bytes_to_console (List.map mySerial_write l) = []
  /\ bytes_to_modem (List.map Serial_write l) = []
  /\ bytes_to_console (List.map Serial_write l) = l.
Proof.
  induction l as [|c l (H1 & H2 & H3 & H4)]; [repeat split|].
  cbn [List.map]. unfold bytes_to_modem, bytes_to_console in *.
  cbn [flat_map app]. rewrite H1, H2, H3, H4. repeat split.
Qed.

(** X13: [updateSerial] is a lossless, order-preserving bridge: after
    its 500 ms settle delay it writes to the modem exactly the bytes
    that were waiting on the console, in their order, then to the
    console exactly the bytes that were waiting from the modem, in
    their order; it prints no command line and leaves the globals
    unchanged. *)
Theorem relay_is_lossless (p : pending) (g : globals) :
  state_of (updateSerial p g) = g
  /\ bytes_to_modem (trace_of (updateSerial p g)) = from_console p
  /\ bytes_to_console (trace_of (updateSerial p g)) = from_modem p
  /\ modem_commands (trace_of (updateSerial p g)) = []
  /\ trace_of (updateSerial p g)
     = [delay 500] ++ List.map mySerial_write (from_console p)
       ++ List.map Serial_write (from_modem p).
Proof.
  rewrite updateSerial_run, state_of_mk, trace_of_mk.
  split; [reflexivity|].
  destruct (bytes_of_writes (from_console p)) as (H1 & H2 & _ & _).
  destruct (bytes_of_writes (from_modem p)) as (_ & _ & H3 & H4).
  rewrite relayed_split.
  rewrite !bytes_to_modem_app, !bytes_to_console_app, H1, H2, H3, H4.
  split; [cbn [bytes_to_modem flat_map app]; apply app_nil_r|].
  split; [reflexivity|].
  split; [rewrite <- relayed_split; apply modem_commands_relayed|].
  reflexivity.
Qed.

(** ** Reachable states *)

Lemma touch_one_count k g :
  cursor_tracks_count g ->
  n (state_of (run (repeat touch_one k) g)) = Z.min (n g + Z.of_nat k) 13.
Proof.
  revert g. induction k as [|k IH]; intros g Hg.
  - cbn [repeat run Z.of_nat]. unfold ret. rewrite state_of_mk.
    destruct Hg as [Hr _]. lia.
  - cbn [repeat]. rewrite run_cons, state_of_mk.
    rewrite IH by (apply loop_invariant; exact Hg).
    rewrite (loop_on_button touch_one g 0 button_one)
      by reflexivity.
    rewrite state_of_mk, <- press_state.
    rewrite digit_press_count
      by (try exact Hg; apply Nat.ltb_lt; reflexivity).
    destruct Hg as [Hr _]. lia.
Qed.

(** X14: the states the sketch can be in after whole loop passes are
    exactly the fourteen pairs [n = k], [text_x = 10 + 17 k] with
    0 <= k <= 13: every run from start-up ends in one of them, and each
    of them is the end of some run. *)
Theorem reachable_states (inps : list input) (k : Z) :
  (exists j, 0 <= j <= 13
             /\ state_of (run inps initial) = mkGlobals (10 + 17 * j) j)
  /\ (0 <= k <= 13 ->
      exists touches,
        state_of (run touches initial) = mkGlobals (10 + 17 * k) k).
Proof.
  split.
  - pose proof (run_invariant inps initial initial_invariant) as Hg.
    exists (n (state_of (run inps initial))).
    split; [exact (proj1 Hg)|apply invariant_determines; exact Hg].
  - intros Hk. exists (repeat touch_one (Z.to_nat k)).
    pose proof (run_invariant (repeat touch_one (Z.to_nat k)) initial
                  initial_invariant) as Hg.
    rewrite (invariant_determines _ Hg).
    rewrite touch_one_count by apply initial_invariant.
    cbn [n initial]. rewrite Z2Nat.id by lia.
    replace (Z.min (0 + k) 13) with k by lia. reflexivity.
Qed.

Lemma reachable_states_witness :
  0 <= 13 <= 13
  /\ exists touches,
       state_of (run touches initial) = mkGlobals (10 + 17 * 13) 13.
Proof.
  assert (0 <= 13 <= 13) as Hk by (split; apply Z.leb_le; reflexivity).
  split; [exact Hk|].
  destruct (reachable_states [] 13) as [_ H]. exact (H Hk).
Defined.
